(** * Fraction Bars: the state/history engine and the gesture classifier

    A shallow embedding of [src/components/StateManager.ts]: the
    [StateManager] class (reducer, bounded action log, undo/redo, batching,
    subscriber notification), the gesture handlers of [FractionBarsApp]
    (hit test, select, drag, split and join geometry) and the pointer
    tracking of [TouchInteractionManager]; and of the keyboard navigation
    of [src/components/AccessibilityManager.ts].

    Modelling conventions.
    - A JavaScript [number] is an exact rational ([Q]); the division of the
      gesture classifier is modelled with its IEEE special results
      (Infinity, NaN) but without rounding.
    - A JavaScript array is a [list]; [push] appends at the end, [pop]
      removes the last element, [shift] removes the first.
    - An optional property is an [option]; a [Partial<T>] is a record of
      options, [None] standing for an absent key.
    - [Date.now()] and [generateId()] are the two sources of
      non-determinism.  The time stamp is an argument of [dispatch]; the ids
      come from an [IdGen], a supply that is threaded through every function
      that (transitively) calls [generateId].
    - Subscriber callbacks are passive observers, identified by a number;
      every invocation is recorded, in order, in the [notified] log of the
      manager.  Timers and persistence ([scheduleSave], [setupAutoSave]) do
      not influence the state and are left out. *)

From Stdlib Require Import List String ZArith QArith Qabs Qminmax Bool Lia Arith.
Import ListNotations.
Local Open Scope list_scope.

(** ** Core state types *)

Definition number := Q.

Module SplitState.
Record t := mk {
  id : string;
  x : number;
  y : number;
  width : number;
  height : number;
  color : string;
  isSelected : bool
}.
End SplitState.

Module FractionBarState.
Record t := mk {
  id : string;
  x : number;
  y : number;
  width : number;
  height : number;
  color : string;
  isSelected : bool;
  isUnitBar : bool;
  label : option string;
  fraction : option string;
  splits : list SplitState.t
}.
End FractionBarState.

(** [Partial<FractionBarState>]: every key may be absent. *)
Module PartialBar.
Record t := mk {
  id : option string;
  x : option number;
  y : option number;
  width : option number;
  height : option number;
  color : option string;
  isSelected : option bool;
  isUnitBar : option bool;
  label : option string;
  fraction : option string;
  splits : option (list SplitState.t)
}.

Definition empty : t :=
  mk None None None None None None None None None None None.
End PartialBar.

Module AppSettings.
Record t := mk {
  defaultBarColor : string;
  defaultBarHeight : number;
  showLabels : bool;
  snapToGrid : bool;
  gridSize : number
}.
End AppSettings.

Module PartialSettings.
Record t := mk {
  defaultBarColor : option string;
  defaultBarHeight : option number;
  showLabels : option bool;
  snapToGrid : option bool;
  gridSize : option number
}.
End PartialSettings.

Module AppState.
Record t := mk {
  version : string;
  bars : list FractionBarState.t;
  currentTool : string;
  selectedBarIds : list string;
  unitBarId : option string;
  settings : AppSettings.t
}.
End AppState.

Module PartialAppState.
Record t := mk {
  version : option string;
  bars : option (list FractionBarState.t);
  currentTool : option string;
  selectedBarIds : option (list string);
  unitBarId : option string;
  settings : option AppSettings.t
}.
End PartialAppState.

(** The action type and its payload, as one tagged union: the constructor is
    the [type] field, its arguments are the fields the reducer reads from
    [payload]. *)
Inductive Payload :=
| ADD_BAR (barData : PartialBar.t)
| REMOVE_BAR (id : string)
| MODIFY_BAR (id : string) (changes : PartialBar.t)
| SPLIT_BAR (barId : string) (splits : list SplitState.t)
| JOIN_BARS (sourceIds : list string) (resultBar : FractionBarState.t)
| SET_UNIT_BAR (id : string)
| CHANGE_TOOL (tool : string)
| UPDATE_SETTINGS (changes : PartialSettings.t).

Record Action := mkAction {
  payload : Payload;
  timestamp : Z
}.

(** ** Object spread *)

(** [orElse o d] is the value of a key in [{ ...{k: d}, ...partial }]. *)
Definition orElse {A} (o : option A) (d : A) : A :=
  match o with Some v => v | None => d end.

(** The same for a key that is optional on both sides. *)
Definition orElseOpt {A} (o d : option A) : option A :=
  match o with Some v => Some v | None => d end.

(** [{ ...bar, ...changes }] *)
Definition spreadBar (bar : FractionBarState.t) (changes : PartialBar.t)
  : FractionBarState.t :=
  FractionBarState.mk
    (orElse (PartialBar.id changes) (FractionBarState.id bar))
    (orElse (PartialBar.x changes) (FractionBarState.x bar))
    (orElse (PartialBar.y changes) (FractionBarState.y bar))
    (orElse (PartialBar.width changes) (FractionBarState.width bar))
    (orElse (PartialBar.height changes) (FractionBarState.height bar))
    (orElse (PartialBar.color changes) (FractionBarState.color bar))
    (orElse (PartialBar.isSelected changes) (FractionBarState.isSelected bar))
    (orElse (PartialBar.isUnitBar changes) (FractionBarState.isUnitBar bar))
    (orElseOpt (PartialBar.label changes) (FractionBarState.label bar))
    (orElseOpt (PartialBar.fraction changes) (FractionBarState.fraction bar))
    (orElse (PartialBar.splits changes) (FractionBarState.splits bar)).

(** [{ ...settings, ...changes }] *)
Definition spreadSettings (s : AppSettings.t) (c : PartialSettings.t)
  : AppSettings.t :=
  AppSettings.mk
    (orElse (PartialSettings.defaultBarColor c) (AppSettings.defaultBarColor s))
    (orElse (PartialSettings.defaultBarHeight c) (AppSettings.defaultBarHeight s))
    (orElse (PartialSettings.showLabels c) (AppSettings.showLabels s))
    (orElse (PartialSettings.snapToGrid c) (AppSettings.snapToGrid s))
    (orElse (PartialSettings.gridSize c) (AppSettings.gridSize s)).

(** [{ ...state, ...partial }] *)
Definition spreadState (s : AppState.t) (p : PartialAppState.t) : AppState.t :=
  AppState.mk
    (orElse (PartialAppState.version p) (AppState.version s))
    (orElse (PartialAppState.bars p) (AppState.bars s))
    (orElse (PartialAppState.currentTool p) (AppState.currentTool s))
    (orElse (PartialAppState.selectedBarIds p) (AppState.selectedBarIds s))
    (orElseOpt (PartialAppState.unitBarId p) (AppState.unitBarId s))
    (orElse (PartialAppState.settings p) (AppState.settings s)).

(** Functional update of the fields of [AppState] the reducer overwrites. *)
Definition withBars (s : AppState.t) (bs : list FractionBarState.t) : AppState.t :=
  AppState.mk (AppState.version s) bs (AppState.currentTool s)
    (AppState.selectedBarIds s) (AppState.unitBarId s) (AppState.settings s).

Definition withSelectedBarIds (s : AppState.t) (ids : list string) : AppState.t :=
  AppState.mk (AppState.version s) (AppState.bars s) (AppState.currentTool s)
    ids (AppState.unitBarId s) (AppState.settings s).

Definition withUnitBarId (s : AppState.t) (u : option string) : AppState.t :=
  AppState.mk (AppState.version s) (AppState.bars s) (AppState.currentTool s)
    (AppState.selectedBarIds s) u (AppState.settings s).

Definition withCurrentTool (s : AppState.t) (tool : string) : AppState.t :=
  AppState.mk (AppState.version s) (AppState.bars s) tool
    (AppState.selectedBarIds s) (AppState.unitBarId s) (AppState.settings s).

Definition withSettings (s : AppState.t) (st : AppSettings.t) : AppState.t :=
  AppState.mk (AppState.version s) (AppState.bars s) (AppState.currentTool s)
    (AppState.selectedBarIds s) (AppState.unitBarId s) st.

(** ** Id generation *)

(** [generateId] concatenates the clock and a random number: its results
    are an arbitrary sequence of strings.  [supply k] is what the k-th call
    returns, [calls] counts the calls made so far. *)
Record IdGen := mkIdGen {
  supply : nat -> string;
  calls : nat
}.

Definition generateId (g : IdGen) : string * IdGen :=
  (supply g (calls g), mkIdGen (supply g) (S (calls g))).

(** ** The reducer *)

Definition defaultState : AppState.t :=
  AppState.mk "1.0.0" [] "bar" [] None
    (AppSettings.mk "#FFFF66" 60 true false 10).

Definition createInitialState (initialState : option PartialAppState.t)
  : AppState.t :=
  match initialState with
  | Some p => spreadState defaultState p
  | None => defaultState
  end.

(** [createBar] reads the defaults from [this.state], the state the manager
    currently holds, not from the state the reducer was called with. *)
Definition createBar (thisState : AppState.t) (g : IdGen) (barData : PartialBar.t)
  : FractionBarState.t * IdGen :=
  let (newId, g') := generateId g in
  (spreadBar
     (FractionBarState.mk newId 0 0 100
        (AppSettings.defaultBarHeight (AppState.settings thisState))
        (AppSettings.defaultBarColor (AppState.settings thisState))
        false false None None [])
     barData,
   g').

Definition includes (ids : list string) (i : string) : bool :=
  existsb (String.eqb i) ids.

Definition handleSplitBar (state : AppState.t) (barId : string)
    (splits : list SplitState.t) : AppState.t :=
  withBars state
    (map (fun bar =>
            if String.eqb (FractionBarState.id bar) barId
            then spreadBar bar
                   (PartialBar.mk None None None None None None None None None
                      None (Some splits))
            else bar)
         (AppState.bars state)).

Definition handleJoinBars (state : AppState.t) (sourceIds : list string)
    (resultBar : FractionBarState.t) : AppState.t :=
  withSelectedBarIds
    (withBars state
       (filter (fun bar => negb (includes sourceIds (FractionBarState.id bar)))
               (AppState.bars state)
        ++ [resultBar]))
    (filter (fun i => negb (includes sourceIds i)) (AppState.selectedBarIds state)).

Definition reducer (thisState : AppState.t) (g : IdGen) (state : AppState.t)
    (action : Action) : AppState.t * IdGen :=
  match payload action with
  | ADD_BAR barData =>
      let (bar, g') := createBar thisState g barData in
      (withBars state (AppState.bars state ++ [bar]), g')
  | REMOVE_BAR id =>
      (withUnitBarId
         (withSelectedBarIds
            (withBars state
               (filter (fun bar => negb (String.eqb (FractionBarState.id bar) id))
                       (AppState.bars state)))
            (filter (fun i => negb (String.eqb i id))
                    (AppState.selectedBarIds state)))
         (match AppState.unitBarId state with
          | Some u => if String.eqb u id then None else Some u
          | None => None
          end),
       g)
  | MODIFY_BAR id changes =>
      (withBars state
         (map (fun bar =>
                 if String.eqb (FractionBarState.id bar) id
                 then spreadBar bar changes
                 else bar)
              (AppState.bars state)),
       g)
  | SPLIT_BAR barId splits => (handleSplitBar state barId splits, g)
  | JOIN_BARS sourceIds resultBar => (handleJoinBars state sourceIds resultBar, g)
  | SET_UNIT_BAR id =>
      (withBars (withUnitBarId state (Some id))
         (map (fun bar =>
                 spreadBar bar
                   (PartialBar.mk None None None None None None None
                      (Some (String.eqb (FractionBarState.id bar) id))
                      None None None))
              (AppState.bars state)),
       g)
  | CHANGE_TOOL tool => (withCurrentTool state tool, g)
  | UPDATE_SETTINGS changes =>
      (withSettings state (spreadSettings (AppState.settings state) changes), g)
  end.

(** ** The state manager *)

Definition StateChangeCallback := nat.

Record StateManager := mkStateManager {
  state : AppState.t;
  history : list Action;
  future : list Action;
  subscribers : list StateChangeCallback;
  batchOperation : bool;
  batchedActions : list Action;
  (** the environment: id generation and the trace of callback invocations *)
  idGen : IdGen;
  notified : list (StateChangeCallback * AppState.t)
}.

Definition maxHistorySize : nat := 100%nat.

(** [new StateManager(initialState)] *)
Definition newStateManager (initialState : option PartialAppState.t) (g : IdGen)
  : StateManager :=
  mkStateManager (createInitialState initialState) [] [] [] false [] g [].

(** [subscribers] is a JavaScript [Set]: adding a member again is a no-op. *)
Definition setAdd (cb : StateChangeCallback) (s : list StateChangeCallback)
  : list StateChangeCallback :=
  if existsb (Nat.eqb cb) s then s else s ++ [cb].

Definition subscribe (m : StateManager) (cb : StateChangeCallback) : StateManager :=
  mkStateManager (state m) (history m) (future m)
    (setAdd cb (subscribers m))
    (batchOperation m) (batchedActions m) (idGen m)
    (notified m ++ [(cb, state m)]).

Definition notifySubscribers (m : StateManager) : StateManager :=
  mkStateManager (state m) (history m) (future m) (subscribers m)
    (batchOperation m) (batchedActions m) (idGen m)
    (notified m ++ map (fun cb => (cb, state m)) (subscribers m)).

Definition updateState (m : StateManager) (newState : AppState.t) : StateManager :=
  notifySubscribers
    (mkStateManager newState (history m) (future m) (subscribers m)
       (batchOperation m) (batchedActions m) (idGen m) (notified m)).

(** [history.push(action)] followed by one [shift] when the bound is
    exceeded. *)
Definition pushHistory (h : list Action) (action : Action) : list Action :=
  let h' := h ++ [action] in
  if (maxHistorySize <? List.length h')%nat then tl h' else h'.

Definition executeAction (m : StateManager) (action : Action) : StateManager :=
  let future' := if (0 <? List.length (future m))%nat then [] else future m in
  let history' := pushHistory (history m) action in
  let (newState, g') := reducer (state m) (idGen m) (state m) action in
  updateState
    (mkStateManager (state m) history' future' (subscribers m)
       (batchOperation m) (batchedActions m) g' (notified m))
    newState.

(** [dispatch]; [now] is the value of [Date.now()]. *)
Definition dispatch (m : StateManager) (now : Z) (p : Payload) : StateManager :=
  let timestampedAction := mkAction p now in
  if batchOperation m
  then mkStateManager (state m) (history m) (future m) (subscribers m)
         (batchOperation m) (batchedActions m ++ [timestampedAction])
         (idGen m) (notified m)
  else executeAction m timestampedAction.

(** The callback given to [batch] is modelled by the [dispatch] calls it
    makes, each with its time stamp. *)
Definition batch (m : StateManager) (callback : list (Z * Payload)) : StateManager :=
  let m1 := mkStateManager (state m) (history m) (future m) (subscribers m)
              true [] (idGen m) (notified m) in
  let m2 := fold_left (fun m' c => dispatch m' (fst c) (snd c)) callback m1 in
  let m3 := if (0 <? List.length (batchedActions m2))%nat
            then fold_left executeAction (batchedActions m2) m2
            else m2 in
  mkStateManager (state m3) (history m3) (future m3) (subscribers m3)
    false [] (idGen m3) (notified m3).

(** The loop of [undo]: [this.history.forEach(a => newState = reducer(newState, a))].
    [this.state] is not assigned during the loop. *)
Fixpoint replay (thisState : AppState.t) (g : IdGen) (newState : AppState.t)
    (h : list Action) : AppState.t * IdGen :=
  match h with
  | [] => (newState, g)
  | action :: h' =>
      let (s, g') := reducer thisState g newState action in
      replay thisState g' s h'
  end.

(** [pop] takes the last element of the array: the head of its reversal. *)
Definition undo (m : StateManager) : StateManager :=
  match rev (history m) with
  | [] => m
  | action :: _ =>
      let history' := removelast (history m) in
      let future' := future m ++ [action] in
      let (newState, g') :=
        replay (state m) (idGen m) (createInitialState None) history' in
      updateState
        (mkStateManager (state m) history' future' (subscribers m)
           (batchOperation m) (batchedActions m) g' (notified m))
        newState
  end.

Definition redo (m : StateManager) : StateManager :=
  match rev (future m) with
  | [] => m
  | action :: _ =>
      executeAction
        (mkStateManager (state m) (history m) (removelast (future m))
           (subscribers m) (batchOperation m) (batchedActions m) (idGen m)
           (notified m))
        action
  end.

(** A sequence of [dispatch] calls, each with its time stamp. *)
Definition dispatchAll (m : StateManager) (l : list (Z * Payload)) : StateManager :=
  fold_left (fun m' c => dispatch m' (fst c) (snd c)) l m.

Definition stamp (c : Z * Payload) : Action := mkAction (snd c) (fst c).

(** ** The gesture classifier: single-pointer move *)

Record TouchPoint := mkTouchPoint {
  id : Z;
  startX : number;
  startY : number;
  currentX : number;
  currentY : number;
  startTime : Z
}.

(** The result of a JavaScript division, without rounding. *)
Inductive JsQuotient :=
| Finite (q : Q)
| PosInfinity
| NegInfinity
| NaN.

(** [a / b] where [b] is not the negative zero (the divisor here is always a
    [Math.abs] result). *)
Definition jsDiv (a b : Q) : JsQuotient :=
  if Qeq_bool b 0 then
    if Qeq_bool a 0 then NaN
    else if Qle_bool 0 a then PosInfinity else NegInfinity
  else Finite (a / b).

Definition Qlt_bool (a b : Q) : bool := negb (Qle_bool b a).

(** [q > c] *)
Definition jsGt (q : JsQuotient) (c : Q) : bool :=
  match q with
  | Finite v => Qlt_bool c v
  | PosInfinity => true
  | NegInfinity => false
  | NaN => false
  end.

(** The invocations of the optional callbacks. *)
Inductive Intent :=
| BarSelect (x y : number)
| BarSplit (x y : number) (isVertical : bool)
| BarDrag (deltaX deltaY : number).

Record TouchInteractionManager := mkTouchInteractionManager {
  (** a [Map]: keys in insertion order *)
  activeTouches : list (Z * TouchPoint);
  (** which of the optional callbacks are set *)
  onBarSelect : bool;
  onBarSplit : bool;
  onBarDrag : bool
}.

Definition DRAG_THRESHOLD : Q := 10.

(** [this.onBarX?.(...)] *)
Definition optionalCall (registered : bool) (i : Intent) : list Intent :=
  if registered then [i] else [].

(** The intents emitted by one call; [None] is the [TypeError] raised when
    the map has no first value. *)
Definition handleSingleTouchMove (m : TouchInteractionManager)
  : option (list Intent) :=
  match activeTouches m with
  | [] => None
  | (_, touch) :: _ =>
      let deltaX := currentX touch - startX touch in
      let deltaY := currentY touch - startY touch in
      Some
        (if Qlt_bool DRAG_THRESHOLD (Qabs deltaX)
            || Qlt_bool DRAG_THRESHOLD (Qabs deltaY)
         then
           if jsGt (jsDiv (Qabs deltaY) (Qabs deltaX)) 2
           then optionalCall (onBarSplit m)
                  (BarSplit (currentX touch) (currentY touch) true)
           else if jsGt (jsDiv (Qabs deltaX) (Qabs deltaY)) 2
           then optionalCall (onBarSplit m)
                  (BarSplit (currentX touch) (currentY touch) false)
           else optionalCall (onBarDrag m) (BarDrag deltaX deltaY)
         else [])
  end.

(** [setCallbacks] as [ModernFractionBars] calls it: all callbacks given. *)
Definition setCallbacks (m : TouchInteractionManager) : TouchInteractionManager :=
  mkTouchInteractionManager (activeTouches m) true true true.

(** ** Concrete inputs used by the examples below *)

(** An id supply whose results are pairwise different: "a", "b", "c", ... *)
Definition letterIds : IdGen :=
  mkIdGen (fun n => String (Ascii.ascii_of_nat (97 + n)) EmptyString) 0.

(** [new StateManager()] *)
Definition freshManager : StateManager := newStateManager None letterIds.

(** [{ isUnitBar: true }] *)
Definition unitBarData : PartialBar.t :=
  PartialBar.mk None None None None None None None (Some true) None None None.

(** [{ id: i }] *)
Definition idData (i : string) : PartialBar.t :=
  PartialBar.mk (Some i) None None None None None None None None None None.

(** ** Observations on states and traces *)

Definition barIds (s : AppState.t) : list string :=
  map FractionBarState.id (AppState.bars s).

(** The number of bars marked as unit bar. *)
Definition unitCount (bs : list FractionBarState.t) : nat :=
  List.length (filter FractionBarState.isUnitBar bs).

(** The number of bars that carry the id [i]. *)
Definition idCount (i : string) (bs : list FractionBarState.t) : nat :=
  List.length (filter (fun b => String.eqb (FractionBarState.id b) i) bs).

Arguments unitCount : simpl never.
Arguments idCount : simpl never.

(** How often the callback [cb] occurs in a trace of invocations. *)
Definition invocations (cb : StateChangeCallback)
    (l : list (StateChangeCallback * AppState.t)) : nat :=
  List.length (filter (fun n => Nat.eqb (fst n) cb) l).

(** The invocations made between the manager [m] and its later stage [m']. *)
Definition notifiedSince (m m' : StateManager)
  : list (StateChangeCallback * AppState.t) :=
  skipn (List.length (notified m)) (notified m').

(** Actions that cannot create a second unit bar in the state [s]: the
    payload of ADD_BAR and the changes of MODIFY_BAR do not set [isUnitBar]
    to true, the result bar of JOIN_BARS is not a unit bar, and the id of
    SET_UNIT_BAR is carried by at most one bar. *)
Definition unitSafe (s : AppState.t) (p : Payload) : bool :=
  match p with
  | ADD_BAR barData =>
      negb (orElse (PartialBar.isUnitBar barData) false)
  | MODIFY_BAR _ changes =>
      negb (orElse (PartialBar.isUnitBar changes) false)
  | JOIN_BARS _ resultBar => negb (FractionBarState.isUnitBar resultBar)
  | SET_UNIT_BAR i => (idCount i (AppState.bars s) <=? 1)%nat
  | _ => true
  end.

Fixpoint allUnitSafe (m : StateManager) (l : list (Z * Payload)) : bool :=
  match l with
  | [] => true
  | c :: l' =>
      unitSafe (state m) (snd c)
      && allUnitSafe (dispatch m (fst c) (snd c)) l'
  end.

(** The last [n] elements of a list (the whole list if it is shorter). *)
Definition lastN {A} (n : nat) (l : list A) : list A :=
  skipn (List.length l - n) l.

(** Two dispatches that change the tool. *)
Definition twoToolChanges : list (Z * Payload) :=
  [(1%Z, CHANGE_TOOL "split"); (2%Z, CHANGE_TOOL "join")].

(** 150 dispatches with the time stamps 0, 1, ..., 149. *)
Definition manyDispatches : list (Z * Payload) :=
  map (fun n => (Z.of_nat n, CHANGE_TOOL "split")) (seq 0 150).

(** [{ currentTool: "measure" }] as the argument of the constructor. *)
Definition measureToolState : PartialAppState.t :=
  PartialAppState.mk None None (Some "measure"%string) None None None.

(** A gesture classifier with all callbacks set and one active pointer that
    went down at (0,0) and is now at (x,y). *)
Definition pointerMovedTo (x y : number) : TouchInteractionManager :=
  setCallbacks
    (mkTouchInteractionManager [(0%Z, mkTouchPoint 0 0 0 x y 0)] false false false).

(** ** The rest of the manager's interface *)

(** The function [subscribe] returns: [this.subscribers.delete(callback)]. *)
Definition unsubscribe (m : StateManager) (cb : StateChangeCallback)
  : StateManager :=
  mkStateManager (state m) (history m) (future m)
    (filter (fun c => negb (Nat.eqb c cb)) (subscribers m))
    (batchOperation m) (batchedActions m) (idGen m) (notified m).

(** [destroy]: [this.subscribers.clear()] (the interval timer is outside the
    model). *)
Definition destroy (m : StateManager) : StateManager :=
  mkStateManager (state m) (history m) (future m) []
    (batchOperation m) (batchedActions m) (idGen m) (notified m).

(** One call of the public interface. *)
Inductive ManagerCall :=
| CallDispatch (now : Z) (p : Payload)
| CallBatch (callback : list (Z * Payload))
| CallUndo
| CallRedo
| CallSubscribe (cb : StateChangeCallback)
| CallUnsubscribe (cb : StateChangeCallback)
| CallDestroy.

Definition call (m : StateManager) (c : ManagerCall) : StateManager :=
  match c with
  | CallDispatch now p => dispatch m now p
  | CallBatch callback => batch m callback
  | CallUndo => undo m
  | CallRedo => redo m
  | CallSubscribe cb => subscribe m cb
  | CallUnsubscribe cb => unsubscribe m cb
  | CallDestroy => destroy m
  end.

Definition callAll (m : StateManager) (l : list ManagerCall) : StateManager :=
  fold_left call l m.

(** Payloads whose reduction does not read the generated id or the
    manager's settings: every action but an ADD_BAR that leaves out [id],
    [height] or [color]. *)
Definition isSome {A} (o : option A) : bool :=
  match o with Some _ => true | None => false end.

Definition selfContained (p : Payload) : bool :=
  match p with
  | ADD_BAR barData =>
      isSome (PartialBar.id barData)
      && isSome (PartialBar.height barData)
      && isSome (PartialBar.color barData)
  | _ => true
  end.

Definition isAddBar (p : Payload) : bool :=
  match p with ADD_BAR _ => true | _ => false end.

(** What holds of a manager between two calls of its interface: no batch
    is open, log and redo buffer together hold at most [maxHistorySize]
    actions, and no callback is registered twice. *)
Definition atRest (m : StateManager) : Prop :=
  batchOperation m = false
  /\ batchedActions m = []
  /\ (List.length (history m) + List.length (future m) <= maxHistorySize)%nat
  /\ NoDup (subscribers m).

(** [{ defaultBarColor: c }] *)
Definition colorSetting (c : string) : PartialSettings.t :=
  PartialSettings.mk (Some c) None None None None.

(** ** The application: from gestures to actions *)

(** Modelled from the spec: [getState] is called by the application and by
    the keyboard navigation but is not defined in the class; readers receive
    the current snapshot of the state. *)
Definition getState (m : StateManager) : AppState.t := state m.

(** The objects [calculateSplits] returns: no [id], no [isSelected]. *)
Module SplitPart.
Record t := mk {
  x : number;
  y : number;
  width : number;
  height : number;
  color : string
}.
End SplitPart.

(** The test of [findBarAt]. *)
Definition barContains (bar : FractionBarState.t) (x y : number) : bool :=
  Qle_bool (FractionBarState.x bar) x
  && Qle_bool x (FractionBarState.x bar + FractionBarState.width bar)
  && Qle_bool (FractionBarState.y bar) y
  && Qle_bool y (FractionBarState.y bar + FractionBarState.height bar).

Definition findBarAt (m : StateManager) (x y : number)
  : option FractionBarState.t :=
  find (fun bar => barContains bar x y) (AppState.bars (getState m)).

Definition getSelectedBars (m : StateManager) : list FractionBarState.t :=
  filter FractionBarState.isSelected (AppState.bars (getState m)).

(** The unused local [ratio] of the source is left out. *)
Definition calculateSplits (bar : FractionBarState.t) (x y : number)
    (isVertical : bool) : list SplitPart.t :=
  let relativeX := x - FractionBarState.x bar in
  let relativeY := y - FractionBarState.y bar in
  if isVertical then
    [SplitPart.mk 0 0 relativeX (FractionBarState.height bar)
       (FractionBarState.color bar);
     SplitPart.mk relativeX 0 (FractionBarState.width bar - relativeX)
       (FractionBarState.height bar) (FractionBarState.color bar)]
  else
    [SplitPart.mk 0 0 (FractionBarState.width bar) relativeY
       (FractionBarState.color bar);
     SplitPart.mk 0 relativeY (FractionBarState.width bar)
       (FractionBarState.height bar - relativeY) (FractionBarState.color bar)].

Definition canBarsJoin (bar1 bar2 : FractionBarState.t) : bool :=
  let gap : Q := 5 in
  let dimensionsMatch :=
    Qeq_bool (FractionBarState.width bar1) (FractionBarState.width bar2)
    || Qeq_bool (FractionBarState.height bar1) (FractionBarState.height bar2) in
  let adjacent :=
    Qlt_bool
      (Qabs (FractionBarState.x bar1 + FractionBarState.width bar1
             - FractionBarState.x bar2)) gap
    || Qlt_bool
         (Qabs (FractionBarState.x bar2 + FractionBarState.width bar2
                - FractionBarState.x bar1)) gap
    || Qlt_bool
         (Qabs (FractionBarState.y bar1 + FractionBarState.height bar1
                - FractionBarState.y bar2)) gap
    || Qlt_bool
         (Qabs (FractionBarState.y bar2 + FractionBarState.height bar2
                - FractionBarState.y bar1)) gap in
  dimensionsMatch && adjacent.

(** [newId] is the result of the application's own [generateId]. *)
Definition createJoinedBar (newId : string) (bar1 bar2 : FractionBarState.t)
  : FractionBarState.t :=
  let x := Qmin (FractionBarState.x bar1) (FractionBarState.x bar2) in
  let y := Qmin (FractionBarState.y bar1) (FractionBarState.y bar2) in
  let width :=
    Qmax (FractionBarState.x bar1 + FractionBarState.width bar1)
         (FractionBarState.x bar2 + FractionBarState.width bar2) - x in
  let height :=
    Qmax (FractionBarState.y bar1 + FractionBarState.height bar1)
         (FractionBarState.y bar2 + FractionBarState.height bar2) - y in
  FractionBarState.mk newId x y width height (FractionBarState.color bar1)
    true false None None [].

(** [{ isSelected: v }] *)
Definition selectedChange (v : bool) : PartialBar.t :=
  PartialBar.mk None None None None None None (Some v) None None None None.

(** [{ x: x, y: y }] *)
Definition positionChange (x y : number) : PartialBar.t :=
  PartialBar.mk None (Some x) (Some y) None None None None None None None None.

Definition handleBarSelect (m : StateManager) (now : Z) (x y : number)
  : StateManager :=
  match findBarAt m x y with
  | Some bar =>
      dispatch m now
        (MODIFY_BAR (FractionBarState.id bar)
           (selectedChange (negb (FractionBarState.isSelected bar))))
  | None => m
  end.

(** The [dispatch] calls the callback of [handleBarDrag] makes; [clock k] is
    the value of [Date.now()] in the k-th call. *)
Definition dragDispatches (clock : nat -> Z) (deltaX deltaY : number)
    (selectedBars : list FractionBarState.t) : list (Z * Payload) :=
  map (fun kb =>
         (clock (fst kb),
          MODIFY_BAR (FractionBarState.id (snd kb))
            (positionChange (FractionBarState.x (snd kb) + deltaX)
                            (FractionBarState.y (snd kb) + deltaY))))
      (combine (seq 0 (List.length selectedBars)) selectedBars).

Definition handleBarDrag (m : StateManager) (clock : nat -> Z)
    (deltaX deltaY : number) : StateManager :=
  batch m (dragDispatches clock deltaX deltaY (getSelectedBars m)).

Definition handleBarJoin (m : StateManager) (now : Z) (newId : string)
    (bar1 bar2 : FractionBarState.t) : StateManager :=
  if canBarsJoin bar1 bar2 then
    dispatch m now
      (JOIN_BARS [FractionBarState.id bar1; FractionBarState.id bar2]
         (createJoinedBar newId bar1 bar2))
  else m.

(** What [handleBarDrag] does to one bar. *)
Definition moveBar (deltaX deltaY : number) (bar : FractionBarState.t)
  : FractionBarState.t :=
  spreadBar bar
    (positionChange (FractionBarState.x bar + deltaX)
                    (FractionBarState.y bar + deltaY)).

(** ** Keyboard navigation *)

Module KeyboardNavigationManager.

Inductive Direction := next | previous | first | last.

(** What [moveFocus] does after it has computed the index: nothing when
    there are no bars, [focusBar(bars[index])] otherwise, which raises a
    [TypeError] when [bars[index]] is undefined. *)
Inductive FocusOutcome :=
| NoBars
| Focus (bar : FractionBarState.t)
| TypeError.

(** [bars[i]] *)
Definition barAt (bars : list FractionBarState.t) (i : Z)
  : option FractionBarState.t :=
  if (i <? 0)%Z then None else nth_error bars (Z.to_nat i).

(** The new [focusedBarIndex] and the outcome. *)
Definition moveFocus (m : StateManager) (focusedBarIndex : Z)
    (direction : Direction) : Z * FocusOutcome :=
  let bars := AppState.bars (getState m) in
  if (Z.of_nat (List.length bars) =? 0)%Z then (focusedBarIndex, NoBars)
  else
    let i :=
      match direction with
      | next => Z.min (focusedBarIndex + 1) (Z.of_nat (List.length bars) - 1)
      | previous => Z.max (focusedBarIndex - 1) 0
      | first => 0%Z
      | last => (Z.of_nat (List.length bars) - 1)%Z
      end in
    (i, match barAt bars i with Some bar => Focus bar | None => TypeError end).

Definition toggleSelection (m : StateManager) (now : Z) (focusedBarIndex : Z)
  : StateManager :=
  let bars := AppState.bars (getState m) in
  if (0 <=? focusedBarIndex)%Z
     && (focusedBarIndex <? Z.of_nat (List.length bars))%Z
  then
    match barAt bars focusedBarIndex with
    | Some bar =>
        dispatch m now
          (MODIFY_BAR (FractionBarState.id bar)
             (selectedChange (negb (FractionBarState.isSelected bar))))
    | None => m
    end
  else m.

End KeyboardNavigationManager.

(** ** The gesture classifier: pointer tracking *)

(** A changed touch of a [TouchEvent]. *)
Record Touch := mkTouch {
  identifier : Z;
  clientX : number;
  clientY : number
}.

(** [Map.set]: an existing key keeps its place. *)
Fixpoint mapSet (k : Z) (v : TouchPoint) (l : list (Z * TouchPoint))
  : list (Z * TouchPoint) :=
  match l with
  | [] => [(k, v)]
  | (k', v') :: l' =>
      if (k' =? k)%Z then (k, v) :: l' else (k', v') :: mapSet k v l'
  end.

Fixpoint mapGet (k : Z) (l : list (Z * TouchPoint)) : option TouchPoint :=
  match l with
  | [] => None
  | (k', v') :: l' => if (k' =? k)%Z then Some v' else mapGet k l'
  end.

Definition mapDelete (k : Z) (l : list (Z * TouchPoint))
  : list (Z * TouchPoint) :=
  filter (fun e => negb (fst e =? k)%Z) l.

Definition withActiveTouches (m : TouchInteractionManager)
    (l : list (Z * TouchPoint)) : TouchInteractionManager :=
  mkTouchInteractionManager l (onBarSelect m) (onBarSplit m) (onBarDrag m).

(** [handleTouchStart]; every changed touch comes with the value of
    [Date.now()] at the time it is stored.  The pinch state
    ([gestureState], computed with [Math.sqrt] and [Math.atan2]) is outside
    the model: it influences neither the tracked pointers nor the
    callbacks. *)
Definition handleTouchStart (m : TouchInteractionManager)
    (changedTouches : list (Z * Touch)) : TouchInteractionManager :=
  withActiveTouches m
    (fold_left
       (fun l nt =>
          let touch := snd nt in
          mapSet (identifier touch)
            (mkTouchPoint (identifier touch) (clientX touch) (clientY touch)
               (clientX touch) (clientY touch) (fst nt))
            l)
       changedTouches (activeTouches m)).



(** The tap test of [handleTouchEnd] and [handleMouseUp]:
    [duration < 300 && distance < 10], where [distance] is the square root
    of [dx * dx + dy * dy]; on exact numbers the root is below 10 exactly
    when the sum is below 100. *)
Definition isTap (duration : Z) (dx dy : number) : bool :=
  (duration <? 300)%Z && Qlt_bool (dx * dx + dy * dy) 100.

(** [handleTouchEnd]; every changed touch comes with the value of
    [Date.now()] at the time it is handled. *)
Definition handleTouchEnd (m : TouchInteractionManager)
    (changedTouches : list (Z * Touch)) : TouchInteractionManager * list Intent :=
  fold_left
    (fun acc nt =>
       let m' := fst acc in
       let touch := snd nt in
       match mapGet (identifier touch) (activeTouches m') with
       | Some activeTouch =>
           (withActiveTouches m' (mapDelete (identifier touch) (activeTouches m')),
            snd acc
            ++ (if isTap (fst nt - startTime activeTouch)
                     (currentX activeTouch - startX activeTouch)
                     (currentY activeTouch - startY activeTouch)
                then optionalCall (onBarSelect m')
                       (BarSelect (clientX touch) (clientY touch))
                else []))
       | None => acc
       end)
    changedTouches (m, []).

Definition handleMouseDown (m : TouchInteractionManager) (now : Z)
    (x y : number) : TouchInteractionManager :=
  if (0 <? List.length (activeTouches m))%nat then m
  else withActiveTouches m
         (mapSet (-1) (mkTouchPoint (-1) x y x y now) (activeTouches m)).

Definition handleMouseUp (m : TouchInteractionManager) (now : Z)
    (x y : number) : TouchInteractionManager * list Intent :=
  match mapGet (-1) (activeTouches m) with
  | Some touch =>
      (withActiveTouches m (mapDelete (-1) (activeTouches m)),
       if isTap (now - startTime touch) (x - startX touch) (y - startY touch)
       then optionalCall (onBarSelect m) (BarSelect x y)
       else [])
  | None => (m, [])
  end.

(** ** Further concrete inputs *)

(** [{ id: i, x: x, isSelected: true }] *)
Definition selectedBarData (i : string) (x : number) : PartialBar.t :=
  PartialBar.mk (Some i) (Some x) None None None None (Some true) None None
    None None.

(** A manager with two selected bars, "p" at x = 0 and "q" at x = 200, and
    one subscriber. *)
Definition dragManager : StateManager :=
  subscribe
    (dispatchAll freshManager
       [(1%Z, ADD_BAR (selectedBarData "p" 0));
        (2%Z, ADD_BAR (selectedBarData "q" 200))])
    7%nat.

Definition leftHalf : SplitState.t :=
  SplitState.mk "l" 0 0 50 60 "#FFFF66" false.

Definition rightHalf : SplitState.t :=
  SplitState.mk "r" 50 0 50 60 "#FFFF66" false.

(** The default state with another default colour. *)
Definition redDefaultState : AppState.t :=
  withSettings defaultState
    (spreadSettings (AppState.settings defaultState) (colorSetting "#FF0000")).

(** Two bars of the same size, 3 apart. *)
Definition joinBarA : FractionBarState.t :=
  FractionBarState.mk "a" 0 0 50 60 "#FFFF66" false false None None [].

Definition joinBarB : FractionBarState.t :=
  FractionBarState.mk "b" 53 0 50 60 "#FFFF66" false false None None [].

(** A whole bar as the payload of ADD_BAR. *)
Definition barDataOf (bar : FractionBarState.t) : PartialBar.t :=
  PartialBar.mk (Some (FractionBarState.id bar)) (Some (FractionBarState.x bar))
    (Some (FractionBarState.y bar)) (Some (FractionBarState.width bar))
    (Some (FractionBarState.height bar)) (Some (FractionBarState.color bar))
    (Some (FractionBarState.isSelected bar))
    (Some (FractionBarState.isUnitBar bar))
    (FractionBarState.label bar) (FractionBarState.fraction bar)
    (Some (FractionBarState.splits bar)).

(** A manager that holds the two bars. *)
Definition twoBarsManager : StateManager :=
  dispatchAll freshManager
    [(1%Z, ADD_BAR (barDataOf joinBarA)); (2%Z, ADD_BAR (barDataOf joinBarB))].

(** ** Lemmas on the reducer *)

Lemma includes_In (ids : list string) (i : string) :
  includes ids i = true <-> In i ids.
Proof.
  unfold includes. rewrite existsb_exists. split.
  - intros [j [Hin Heq]]. apply String.eqb_eq in Heq. now subst.
  - intros Hin. exists i. split; [assumption | apply String.eqb_refl].
Qed.

Lemma includes_not_In (ids : list string) (i : string) :
  includes ids i = false <-> ~ In i ids.
Proof.
  rewrite <- includes_In. destruct (includes ids i); split; intros H;
    try reflexivity; try discriminate; try (intros H'; discriminate).
  exfalso. now apply H.
Qed.

Lemma filter_all {A} (f : A -> bool) (l : list A) :
  (forall a, In a l -> f a = true) -> filter f l = l.
Proof.
  induction l as [|a l IH]; simpl; intros H; [reflexivity|].
  rewrite (H a (or_introl eq_refl)). f_equal. apply IH.
  intros b Hb. apply H. now right.
Qed.

Lemma map_unchanged {A} (f : A -> A) (l : list A) :
  (forall a, In a l -> f a = a) -> map f l = l.
Proof.
  induction l as [|a l IH]; simpl; intros H; [reflexivity|].
  rewrite (H a (or_introl eq_refl)). f_equal. apply IH.
  intros b Hb. apply H. now right.
Qed.

Lemma reducer_keeps_idGen thisState g s a :
  (forall d, payload a <> ADD_BAR d) -> snd (reducer thisState g s a) = g.
Proof.
  intros H. unfold reducer. destruct (payload a) eqn:E; try reflexivity.
  exfalso. now apply (H barData).
Qed.

(** ** JOIN_BARS *)

(** C10: for every JOIN_BARS action the bars whose ids are not among
    [sourceIds] are kept unchanged and in their order, the result bar is
    appended as the last bar, [selectedBarIds] keeps exactly the ids that are
    not source ids, in their order, and [version], [currentTool],
    [unitBarId] and [settings] are unchanged. *)
Theorem join_bars_frame (thisState : AppState.t) (g : IdGen) (s : AppState.t)
    (sourceIds : list string) (resultBar : FractionBarState.t) (t : Z) :
  let s' := fst (reducer thisState g s (mkAction (JOIN_BARS sourceIds resultBar) t)) in
  AppState.bars s'
    = filter (fun b => negb (includes sourceIds (FractionBarState.id b)))
             (AppState.bars s) ++ [resultBar]
  /\ (forall b, In b (AppState.bars s) ->
        ~ In (FractionBarState.id b) sourceIds -> In b (AppState.bars s'))
  /\ (forall b, In b (AppState.bars s') ->
        b = resultBar
        \/ (In b (AppState.bars s) /\ ~ In (FractionBarState.id b) sourceIds))
  /\ (forall d, last (AppState.bars s') d = resultBar)
  /\ AppState.selectedBarIds s'
       = filter (fun i => negb (includes sourceIds i)) (AppState.selectedBarIds s)
  /\ (forall i, In i (AppState.selectedBarIds s')
                <-> In i (AppState.selectedBarIds s) /\ ~ In i sourceIds)
  /\ AppState.currentTool s' = AppState.currentTool s
  /\ AppState.unitBarId s' = AppState.unitBarId s
  /\ AppState.settings s' = AppState.settings s
  /\ AppState.version s' = AppState.version s.
Proof.
  cbn.
  repeat split; try reflexivity.
  - intros b Hin Hsrc. apply in_or_app. left. apply filter_In. split; [assumption|].
    apply includes_not_In in Hsrc. now rewrite Hsrc.
  - intros b Hin. apply in_app_or in Hin. destruct Hin as [Hin | [Heq | []]].
    + right. apply filter_In in Hin. destruct Hin as [Hin Hneg]. split; [assumption|].
      apply includes_not_In. now apply negb_true_iff in Hneg.
    + now left.
  - intros d. apply last_last.
  - apply filter_In in H. tauto.
  - apply filter_In in H. destruct H as [_ Hneg].
    apply includes_not_In. now apply negb_true_iff in Hneg.
  - intros [Hin Hsrc]. apply filter_In. split; [assumption|].
    apply includes_not_In in Hsrc. now rewrite Hsrc.
Qed.

(** ** Actions that name an absent bar *)

(** The state of a fresh manager after SET_UNIT_BAR with the id "z": no bar
    exists, [unitBarId] is "z". *)
Lemma set_unit_bar_absent_state :
  state (dispatch freshManager 1 (SET_UNIT_BAR "z"))
  = withUnitBarId defaultState (Some "z"%string).
Proof. reflexivity. Qed.

(** C8, as stated, fails: in the state reached from a fresh manager by
    SET_UNIT_BAR("z") no bar has the id "z", and REMOVE_BAR("z") returns a
    different state ([unitBarId] is cleared). *)
Lemma remove_absent_bar_changes_state :
  let s := state (dispatch freshManager 1 (SET_UNIT_BAR "z")) in
  (forall b, In b (AppState.bars s) -> FractionBarState.id b <> "z"%string)
  /\ fst (reducer s letterIds s (mkAction (REMOVE_BAR "z") 2)) <> s.
Proof.
  split.
  - intros b [].
  - cbn. intros H. discriminate H.
Qed.

(** C8 (amended): when no bar has the id, MODIFY_BAR and SPLIT_BAR return a
    state equal to their input; REMOVE_BAR returns the input with the id
    taken out of [selectedBarIds] and [unitBarId] cleared if it is that id,
    hence a state equal to its input when the id is neither selected nor the
    unit bar id.  The reducer is a total function: no error is raised. *)
Theorem absent_id_is_no_op (thisState : AppState.t) (g : IdGen) (s : AppState.t)
    (i : string) (t : Z) :
  (forall b, In b (AppState.bars s) -> FractionBarState.id b <> i) ->
  (forall changes,
      reducer thisState g s (mkAction (MODIFY_BAR i changes) t) = (s, g))
  /\ (forall splits,
      reducer thisState g s (mkAction (SPLIT_BAR i splits) t) = (s, g))
  /\ reducer thisState g s (mkAction (REMOVE_BAR i) t)
     = (withUnitBarId
          (withSelectedBarIds s
             (filter (fun j => negb (String.eqb j i)) (AppState.selectedBarIds s)))
          (match AppState.unitBarId s with
           | Some u => if String.eqb u i then None else Some u
           | None => None
           end),
        g)
  /\ (~ In i (AppState.selectedBarIds s) -> AppState.unitBarId s <> Some i ->
      reducer thisState g s (mkAction (REMOVE_BAR i) t) = (s, g)).
Proof.
  intros Habsent.
  assert (Hneq : forall b, In b (AppState.bars s) ->
                           String.eqb (FractionBarState.id b) i = false).
  { intros b Hb. apply String.eqb_neq. now apply Habsent. }
  assert (Hfilter : filter (fun bar => negb (String.eqb (FractionBarState.id bar) i))
                      (AppState.bars s) = AppState.bars s).
  { apply filter_all. intros b Hb. now rewrite (Hneq b Hb). }
  repeat split.
  - intros changes. unfold reducer; cbn. f_equal.
    rewrite map_unchanged; [now destruct s|].
    intros b Hb. now rewrite (Hneq b Hb).
  - intros splits. unfold reducer, handleSplitBar; cbn. f_equal.
    rewrite map_unchanged; [now destruct s|].
    intros b Hb. now rewrite (Hneq b Hb).
  - unfold reducer; cbn. rewrite Hfilter. now destruct s.
  - intros Hsel Hunit. unfold reducer; cbn. rewrite Hfilter. f_equal.
    rewrite filter_all.
    + destruct s as [v bs tool sel [u|] st]; cbn in *; [|reflexivity].
      destruct (String.eqb u i) eqn:E; [|reflexivity].
      apply String.eqb_eq in E. subst u. now elim Hunit.
    + intros j Hj. apply negb_true_iff, String.eqb_neq. intros ->. now apply Hsel.
Qed.

Lemma absent_id_is_no_op_witness :
  let s := state twoBarsManager in
  barIds s = ["a"%string; "b"%string]
  /\ reducer s letterIds s (mkAction (MODIFY_BAR "q" (idData "zz")) 5)
     = (s, letterIds)
  /\ reducer s letterIds s (mkAction (SPLIT_BAR "q" [leftHalf; rightHalf]) 5)
     = (s, letterIds)
  /\ reducer s letterIds s (mkAction (REMOVE_BAR "q") 5) = (s, letterIds).
Proof.
  cbv zeta.
  assert (H : forall b, In b (AppState.bars (state twoBarsManager)) ->
                        FractionBarState.id b <> "q"%string).
  { intros b [<- | [<- | []]]; discriminate. }
  destruct (absent_id_is_no_op (state twoBarsManager) letterIds
              (state twoBarsManager) "q" 5 H) as [Hm [Hs [_ Hr]]].
  split; [reflexivity|]. split; [apply Hm|]. split; [apply Hs|].
  apply Hr.
  - intros [].
  - discriminate.
Defined.

(** ** MODIFY_BAR and the ids of the bars *)

(** C5, as stated, fails: [changes] is a partial bar and may carry an [id],
    which the spread writes over the id of the matching bar.  From a fresh
    manager, ADD_BAR({id: "x"}) then MODIFY_BAR("x", {id: "y"}) turns the
    id sequence ["x"] into ["y"]. *)
Lemma modify_bar_can_change_id :
  let m := dispatch freshManager 1 (ADD_BAR (idData "x")) in
  barIds (state m) = ["x"%string]
  /\ barIds (state (dispatch m 2 (MODIFY_BAR "x" (idData "y")))) = ["y"%string]
  /\ barIds (state (dispatch m 2 (MODIFY_BAR "x" (idData "y")))) <> barIds (state m).
Proof.
  cbn. repeat split. discriminate.
Qed.

(** C5 (amended): for every state and every MODIFY_BAR action whose
    [payload.changes] has no [id] key, the sequence of bar ids of the result
    equals the sequence of bar ids of the input; when [payload.changes]
    carries an id, that id is written over the id of every matching bar and
    the other ids stay as they are. *)
Theorem modify_bar_preserves_ids (thisState : AppState.t) (g : IdGen)
    (s : AppState.t) (i : string) (changes : PartialBar.t) (t : Z) :
  let s' := fst (reducer thisState g s (mkAction (MODIFY_BAR i changes) t)) in
  (PartialBar.id changes = None -> barIds s' = barIds s)
  /\ (forall newId, PartialBar.id changes = Some newId ->
        barIds s'
        = map (fun j => if String.eqb j i then newId else j) (barIds s))
  /\ List.length (AppState.bars s') = List.length (AppState.bars s).
Proof.
  unfold reducer, barIds; cbn. repeat split.
  - intros Hid. rewrite map_map. apply map_ext. intros b.
    destruct (String.eqb (FractionBarState.id b) i); [|reflexivity].
    cbn. now rewrite Hid.
  - intros newId Hid. rewrite !map_map. apply map_ext. intros b.
    destruct (String.eqb (FractionBarState.id b) i); [|reflexivity].
    cbn. now rewrite Hid.
  - apply length_map.
Qed.

Lemma modify_bar_preserves_ids_witness :
  let s := state twoBarsManager in
  barIds (fst (reducer s letterIds s (mkAction (MODIFY_BAR "a" unitBarData) 3)))
  = ["a"%string; "b"%string]
  /\ barIds (fst (reducer s letterIds s
                    (mkAction (MODIFY_BAR "a" (idData "y")) 3)))
     = ["y"%string; "b"%string].
Proof.
  cbv zeta. split.
  - apply (proj1 (modify_bar_preserves_ids (state twoBarsManager) letterIds
                    (state twoBarsManager) "a" unitBarData 3)).
    reflexivity.
  - apply (proj1 (proj2 (modify_bar_preserves_ids (state twoBarsManager)
                           letterIds (state twoBarsManager) "a" (idData "y") 3))
             "y"%string).
    reflexivity.
Defined.

(** ** Determinism of the reducer *)

(** C3 fails on the code: the reducer is not a function of the state and
    the action.  For ADD_BAR, [createBar] calls [generateId], so two
    evaluations on the same pair return bars with different ids; and it
    reads the default colour from [this.state], not from the state it was
    given, so the same pair gives different bars under different manager
    states.  The replay of [undo], which relies on the reducer, therefore
    rebuilds another bar: after ADD_BAR, SPLIT_BAR of the new bar "a" and a
    change of tool, undoing the change of tool leaves a bar "b" without
    splits. *)
Theorem reducer_is_not_pure :
  (let a := mkAction (ADD_BAR PartialBar.empty) 1 in
   let first := reducer defaultState letterIds defaultState a in
   let second := reducer defaultState (snd first) defaultState a in
   barIds (fst first) = ["a"%string]
   /\ barIds (fst second) = ["b"%string]
   /\ fst first <> fst second)
  /\ (let a := mkAction (ADD_BAR PartialBar.empty) 1 in
      map FractionBarState.color
        (AppState.bars (fst (reducer defaultState letterIds defaultState a)))
      = ["#FFFF66"%string]
      /\ map FractionBarState.color
           (AppState.bars (fst (reducer redDefaultState letterIds defaultState a)))
         = ["#FF0000"%string])
  /\ (let m :=
        dispatchAll freshManager
          [(1%Z, ADD_BAR PartialBar.empty);
           (2%Z, SPLIT_BAR "a" [leftHalf; rightHalf]);
           (3%Z, CHANGE_TOOL "split")] in
      map (fun b => (FractionBarState.id b,
                     List.length (FractionBarState.splits b)))
          (AppState.bars (state m))
      = [("a"%string, 2%nat)]
      /\ map (fun b => (FractionBarState.id b,
                        List.length (FractionBarState.splits b)))
             (AppState.bars (state (undo m)))
         = [("b"%string, 0%nat)]).
Proof.
  cbn. repeat split. discriminate.
Qed.

(** With the generated id and the manager's default height and colour
    fixed, the reducer returns equal states for equal arguments; for every
    action but ADD_BAR it does so unconditionally. *)
Theorem reducer_deterministic_up_to_generated_id
    (thisState thisState' : AppState.t) (g g' : IdGen) (s : AppState.t)
    (a : Action) :
  (forall barData, payload a = ADD_BAR barData ->
     supply g (calls g) = supply g' (calls g')
     /\ AppSettings.defaultBarHeight (AppState.settings thisState)
        = AppSettings.defaultBarHeight (AppState.settings thisState')
     /\ AppSettings.defaultBarColor (AppState.settings thisState)
        = AppSettings.defaultBarColor (AppState.settings thisState')) ->
  fst (reducer thisState g s a) = fst (reducer thisState' g' s a).
Proof.
  intros H. unfold reducer. destruct (payload a) eqn:E; try reflexivity.
  destruct (H barData eq_refl) as [Hid [Hh Hc]].
  unfold createBar, generateId. cbn. now rewrite Hid, Hh, Hc.
Qed.

Lemma reducer_deterministic_up_to_generated_id_witness :
  fst (reducer defaultState letterIds defaultState
         (mkAction (ADD_BAR PartialBar.empty) 1))
  = fst (reducer defaultState (mkIdGen (fun _ => "a"%string) 7) defaultState
           (mkAction (ADD_BAR PartialBar.empty) 1)).
Proof.
  apply reducer_deterministic_up_to_generated_id.
  intros barData _. repeat split.
Defined.

(** ** Lemmas on the manager *)

Lemma executeAction_state m a :
  state (executeAction m a) = fst (reducer (state m) (idGen m) (state m) a).
Proof.
  unfold executeAction. now destruct (reducer (state m) (idGen m) (state m) a).
Qed.

Lemma executeAction_history m a :
  history (executeAction m a) = pushHistory (history m) a.
Proof.
  unfold executeAction. now destruct (reducer (state m) (idGen m) (state m) a).
Qed.

Lemma executeAction_future m a : future (executeAction m a) = [].
Proof.
  unfold executeAction. destruct (reducer (state m) (idGen m) (state m) a).
  cbn. now destruct (future m).
Qed.

Lemma executeAction_subscribers m a :
  subscribers (executeAction m a) = subscribers m.
Proof.
  unfold executeAction. now destruct (reducer (state m) (idGen m) (state m) a).
Qed.

Lemma executeAction_batchOperation m a :
  batchOperation (executeAction m a) = batchOperation m.
Proof.
  unfold executeAction. now destruct (reducer (state m) (idGen m) (state m) a).
Qed.

Lemma executeAction_notified m a :
  notified (executeAction m a)
  = notified m
    ++ map (fun cb => (cb, state (executeAction m a))) (subscribers m).
Proof.
  unfold executeAction. now destruct (reducer (state m) (idGen m) (state m) a).
Qed.

Lemma dispatch_unbatched m now p :
  batchOperation m = false ->
  dispatch m now p = executeAction m (mkAction p now).
Proof. intros H. unfold dispatch. now rewrite H. Qed.

Lemma dispatch_batchOperation m now p :
  batchOperation (dispatch m now p) = batchOperation m.
Proof.
  unfold dispatch. destruct (batchOperation m) eqn:E; [reflexivity|].
  now rewrite executeAction_batchOperation.
Qed.

(** ** The unit bar *)

Lemma unitCount_app l1 l2 : unitCount (l1 ++ l2) = (unitCount l1 + unitCount l2)%nat.
Proof. unfold unitCount. now rewrite filter_app, length_app. Qed.

Lemma unitCount_filter f l : (unitCount (filter f l) <= unitCount l)%nat.
Proof.
  unfold unitCount. induction l as [|b l IH]; cbn; [lia|].
  destruct (f b); cbn; destruct (FractionBarState.isUnitBar b); cbn; lia.
Qed.

Lemma unitCount_map_le f l :
  (forall b, FractionBarState.isUnitBar (f b) = true ->
             FractionBarState.isUnitBar b = true) ->
  (unitCount (map f l) <= unitCount l)%nat.
Proof.
  intros H. unfold unitCount. induction l as [|b l IH]; cbn; [lia|].
  destruct (FractionBarState.isUnitBar (f b)) eqn:E.
  - rewrite (H b E). cbn. lia.
  - destruct (FractionBarState.isUnitBar b); cbn; lia.
Qed.

Lemma unitCount_set_unit i l :
  unitCount
    (map (fun bar =>
            spreadBar bar
              (PartialBar.mk None None None None None None None
                 (Some (String.eqb (FractionBarState.id bar) i)) None None None))
         l)
  = idCount i l.
Proof.
  unfold unitCount, idCount. induction l as [|b l IH]; cbn; [reflexivity|].
  destruct (String.eqb (FractionBarState.id b) i); cbn; now rewrite IH.
Qed.

Lemma reducer_unit_safe thisState g s a :
  unitSafe s (payload a) = true ->
  (unitCount (AppState.bars s) <= 1)%nat ->
  (unitCount (AppState.bars (fst (reducer thisState g s a))) <= 1)%nat.
Proof.
  intros Hsafe Hinv. unfold reducer.
  destruct (payload a) as [barData|i|i changes|i splits|srcs rb|i|tool|changes];
    cbn in *; try assumption.
  - rewrite unitCount_app. unfold unitCount at 2. cbn.
    apply negb_true_iff in Hsafe. rewrite Hsafe. cbn. lia.
  - etransitivity; [apply unitCount_filter | assumption].
  - etransitivity; [apply unitCount_map_le | assumption].
    intros b. destruct (String.eqb (FractionBarState.id b) i); [|trivial].
    cbn. apply negb_true_iff in Hsafe.
    destruct (PartialBar.isUnitBar changes) as [u|]; cbn in *; [|trivial].
    subst u. discriminate.
  - etransitivity; [apply unitCount_map_le | assumption].
    intros b. now destruct (String.eqb (FractionBarState.id b) i).
  - rewrite unitCount_app. unfold unitCount at 2. cbn.
    apply negb_true_iff in Hsafe. rewrite Hsafe. cbn.
    pose proof (unitCount_filter
                  (fun bar => negb (includes srcs (FractionBarState.id bar)))
                  (AppState.bars s)).
    lia.
  - rewrite unitCount_set_unit. now apply Nat.leb_le.
Qed.

Lemma dispatchAll_unit_safe l : forall m,
  batchOperation m = false ->
  (unitCount (AppState.bars (state m)) <= 1)%nat ->
  allUnitSafe m l = true ->
  (unitCount (AppState.bars (state (dispatchAll m l))) <= 1)%nat.
Proof.
  induction l as [|[now p] l IH]; intros m Hb Hinv Hsafe; [assumption|].
  cbn in Hsafe. apply andb_true_iff in Hsafe. destruct Hsafe as [Hp Hl].
  cbn. apply IH.
  - now rewrite dispatch_batchOperation.
  - rewrite (dispatch_unbatched _ _ _ Hb), executeAction_state.
    now apply reducer_unit_safe.
  - assumption.
Qed.

(** C4, as stated, fails: ADD_BAR merges its payload over the defaults, so
    two ADD_BAR({isUnitBar: true}) dispatched to a fresh manager leave two
    bars marked as unit bar. *)
Lemma two_unit_bars_reachable :
  let m := dispatchAll freshManager
             [(1%Z, ADD_BAR unitBarData); (2%Z, ADD_BAR unitBarData)] in
  unitCount (AppState.bars (state m)) = 2%nat
  /\ ~ (unitCount (AppState.bars (state m)) <= 1)%nat.
Proof.
  vm_compute. split; [reflexivity | lia].
Qed.

(** C4 (amended): at most one bar has [isUnitBar = true] in every state
    reached, from a state with at most one unit bar, by dispatched actions
    of which no ADD_BAR payload and no MODIFY_BAR change sets [isUnitBar] to
    true, no JOIN_BARS result bar is a unit bar, and every SET_UNIT_BAR
    names an id carried by at most one bar.  After SET_UNIT_BAR(X) then
    SET_UNIT_BAR(Y) the bars with [isUnitBar = true] are exactly the bars
    with id Y, the bar ids are unchanged and [unitBarId] is Y. *)
Theorem unit_bar_exclusivity (m : StateManager) :
  batchOperation m = false ->
  ((unitCount (AppState.bars (state m)) <= 1)%nat ->
   forall l, allUnitSafe m l = true ->
     (unitCount (AppState.bars (state (dispatchAll m l))) <= 1)%nat)
  /\ (forall (X Y : string) (tX tY : Z),
        let m2 := dispatch (dispatch m tX (SET_UNIT_BAR X)) tY (SET_UNIT_BAR Y) in
        (forall b, In b (AppState.bars (state m2)) ->
           (FractionBarState.isUnitBar b = true <-> FractionBarState.id b = Y))
        /\ barIds (state m2) = barIds (state m)
        /\ AppState.unitBarId (state m2) = Some Y
        /\ unitCount (AppState.bars (state m2)) = idCount Y (AppState.bars (state m))).
Proof.
  intros Hb. split.
  - intros Hinv l Hsafe. now apply dispatchAll_unit_safe.
  - intros X Y tX tY m2. subst m2.
    assert (Hb1 : batchOperation (dispatch m tX (SET_UNIT_BAR X)) = false)
      by now rewrite dispatch_batchOperation.
    rewrite (dispatch_unbatched _ _ _ Hb1), executeAction_state.
    rewrite (dispatch_unbatched _ _ _ Hb), executeAction_state.
    unfold reducer, barIds; cbn. repeat split.
    + intros Hu. apply in_map_iff in H. destruct H as [b1 [<- H1]].
      apply in_map_iff in H1. destruct H1 as [b0 [<- H0]].
      cbn in *. now apply String.eqb_eq.
    + intros Hid. apply in_map_iff in H. destruct H as [b1 [<- H1]].
      apply in_map_iff in H1. destruct H1 as [b0 [<- H0]].
      cbn in *. now apply String.eqb_eq.
    + now rewrite !map_map.
    + rewrite unitCount_set_unit. unfold idCount.
      induction (AppState.bars (state m)) as [|b l IH]; cbn; [reflexivity|].
      destruct (String.eqb (FractionBarState.id b) Y); cbn; now rewrite IH.
Qed.

Lemma unit_bar_exclusivity_witness :
  (unitCount
     (AppState.bars
        (state
           (dispatchAll freshManager
              [(1%Z, ADD_BAR (idData "x")); (2%Z, ADD_BAR (idData "y"));
               (3%Z, SET_UNIT_BAR "x"); (4%Z, SET_UNIT_BAR "y")]))) <= 1)%nat.
Proof.
  apply (proj1 (unit_bar_exclusivity freshManager eq_refl)).
  - vm_compute. lia.
  - reflexivity.
Defined.

(** ** The bounded history *)

Lemma lastN_short {A} (n : nat) (l : list A) :
  (List.length l <= n)%nat -> lastN n l = l.
Proof.
  intros H. unfold lastN. replace (List.length l - n)%nat with 0%nat by lia.
  reflexivity.
Qed.

Lemma lastN_length {A} (n : nat) (l : list A) :
  List.length (lastN n l) = Nat.min n (List.length l).
Proof. unfold lastN. rewrite length_skipn. lia. Qed.

Lemma lastN_app_lastN {A} (n : nat) (l1 l2 : list A) :
  lastN n (lastN n l1 ++ l2) = lastN n (l1 ++ l2).
Proof.
  unfold lastN.
  assert (E : skipn (List.length l1 - n) l1 ++ l2
              = skipn (List.length l1 - n) (l1 ++ l2)).
  { rewrite skipn_app.
    replace (List.length l1 - n - List.length l1)%nat with 0%nat by lia.
    reflexivity. }
  rewrite E, skipn_skipn. f_equal.
  rewrite length_skipn, !length_app. lia.
Qed.

Lemma lastN_app_long {A} (n : nat) (l1 l2 : list A) :
  (n <= List.length l2)%nat -> lastN n (l1 ++ l2) = lastN n l2.
Proof.
  intros H. unfold lastN. rewrite skipn_app, length_app.
  rewrite (skipn_all2 (n := List.length l1 + List.length l2 - n) l1) by lia.
  cbn. f_equal. lia.
Qed.

Lemma pushHistory_lastN (h : list Action) (a : Action) :
  (List.length h <= maxHistorySize)%nat ->
  pushHistory h a = lastN maxHistorySize (h ++ [a]).
Proof.
  intros H. unfold pushHistory, lastN.
  rewrite length_app. cbn [List.length].
  destruct (Nat.ltb_spec maxHistorySize (List.length h + 1)) as [Hlt | Hge].
  - replace (List.length h + 1 - maxHistorySize)%nat with 1%nat by lia.
    reflexivity.
  - replace (List.length h + 1 - maxHistorySize)%nat with 0%nat by lia.
    reflexivity.
Qed.

Lemma executeAll_history (acts : list Action) : forall m,
  (List.length (history m) <= maxHistorySize)%nat ->
  history (fold_left executeAction acts m)
  = lastN maxHistorySize (history m ++ acts).
Proof.
  induction acts as [|a acts IH]; intros m H; cbn [fold_left].
  - rewrite app_nil_r. symmetry. now apply lastN_short.
  - rewrite IH.
    + rewrite executeAction_history, pushHistory_lastN by assumption.
      rewrite lastN_app_lastN, <- app_assoc. reflexivity.
    + rewrite executeAction_history, pushHistory_lastN by assumption.
      rewrite lastN_length. lia.
Qed.

Lemma dispatchAll_unbatched (l : list (Z * Payload)) : forall m,
  batchOperation m = false ->
  dispatchAll m l = fold_left executeAction (map stamp l) m.
Proof.
  unfold dispatchAll.
  induction l as [|[now p] l IH]; intros m H; cbn [fold_left map]; [reflexivity|].
  rewrite IH by now rewrite dispatch_batchOperation.
  now rewrite (dispatch_unbatched _ _ _ H).
Qed.

(** ** Undo and redo *)

Lemma undo_empty m : history m = [] -> undo m = m.
Proof. intros H. unfold undo. now rewrite H. Qed.

Lemma undo_unfold m h a :
  history m = h ++ [a] ->
  undo m
  = updateState
      (mkStateManager (state m) h (future m ++ [a]) (subscribers m)
         (batchOperation m) (batchedActions m)
         (snd (replay (state m) (idGen m) defaultState h)) (notified m))
      (fst (replay (state m) (idGen m) defaultState h)).
Proof.
  intros H. unfold undo. rewrite H, rev_unit, removelast_last. cbn [createInitialState].
  now destruct (replay (state m) (idGen m) defaultState h).
Qed.

Lemma undo_history m : history (undo m) = removelast (history m).
Proof.
  destruct (history m) as [|a0 h0] eqn:E.
  - now rewrite (undo_empty m E), E.
  - destruct (exists_last (l := a0 :: h0)) as [h [a Hh]]; [discriminate|].
    rewrite Hh in *. rewrite (undo_unfold m h a E), removelast_last. reflexivity.
Qed.

Lemma length_removelast_pred {A} (l : list A) :
  List.length (removelast l) = (List.length l - 1)%nat.
Proof.
  destruct l as [|a0 l0]; [reflexivity|].
  destruct (exists_last (l := a0 :: l0)) as [h [a Hh]]; [discriminate|].
  rewrite Hh, removelast_last, length_app. cbn. lia.
Qed.

Lemma iter_undo_history_length (k : nat) m :
  List.length (history (Nat.iter k undo m)) = (List.length (history m) - k)%nat.
Proof.
  induction k as [|k IH]; cbn [Nat.iter nat_rect]; [lia|].
  change (nat_rect _ m (fun _ => undo) k) with (Nat.iter k undo m).
  rewrite undo_history, length_removelast_pred, IH. lia.
Qed.

Lemma iter_undo_empty (k : nat) m : history m = [] -> Nat.iter k undo m = m.
Proof.
  intros H. induction k as [|k IH]; [reflexivity|].
  rewrite Nat.iter_succ, IH. now apply undo_empty.
Qed.

Lemma redo_future m : future (redo m) = [].
Proof.
  unfold redo. destruct (rev (future m)) as [|a r] eqn:E.
  - apply (f_equal (@rev Action)) in E. now rewrite rev_involutive in E.
  - apply executeAction_future.
Qed.

(** The log never exceeds its bound: every operation of the manager keeps
    it. *)
Lemma executeAction_history_bounded m a :
  (List.length (history m) <= maxHistorySize)%nat ->
  (List.length (history (executeAction m a)) <= maxHistorySize)%nat.
Proof.
  intros H. rewrite executeAction_history, pushHistory_lastN by assumption.
  rewrite lastN_length. lia.
Qed.

Lemma dispatch_history_bounded m now p :
  (List.length (history m) <= maxHistorySize)%nat ->
  (List.length (history (dispatch m now p)) <= maxHistorySize)%nat.
Proof.
  intros H. unfold dispatch. destruct (batchOperation m); [assumption|].
  now apply executeAction_history_bounded.
Qed.

Lemma undo_history_bounded m :
  (List.length (history m) <= maxHistorySize)%nat ->
  (List.length (history (undo m)) <= maxHistorySize)%nat.
Proof.
  intros H. rewrite undo_history, length_removelast_pred. lia.
Qed.

Lemma redo_history_bounded m :
  (List.length (history m) <= maxHistorySize)%nat ->
  (List.length (history (redo m)) <= maxHistorySize)%nat.
Proof.
  intros H. unfold redo. destruct (rev (future m)); [assumption|].
  now apply executeAction_history_bounded.
Qed.

Lemma redo_twice m : redo (redo m) = redo m.
Proof.
  unfold redo at 1. now rewrite redo_future.
Qed.

(** C6: after more than 100 dispatches (no batch open, the log within its
    bound before) the history holds exactly the 100 most recent actions in
    dispatch order; 100 calls of [undo] empty it, and every further [undo]
    is a no-op. *)
Theorem history_bound_fifo (m : StateManager) (l : list (Z * Payload)) :
  batchOperation m = false ->
  (List.length (history m) <= maxHistorySize)%nat ->
  (100 < List.length l)%nat ->
  let m' := dispatchAll m l in
  history m' = skipn (List.length l - 100) (map stamp l)
  /\ List.length (history m') = 100%nat
  /\ history (Nat.iter 100 undo m') = []
  /\ (forall k, (100 <= k)%nat -> Nat.iter k undo m' = Nat.iter 100 undo m')
  /\ undo (Nat.iter 100 undo m') = Nat.iter 100 undo m'.
Proof.
  intros Hb Hh Hl m'.
  assert (Hhist : history m' = skipn (List.length l - 100) (map stamp l)).
  { subst m'. rewrite (dispatchAll_unbatched l m Hb), executeAll_history by assumption.
    rewrite lastN_app_long by (rewrite length_map; unfold maxHistorySize; lia).
    unfold lastN, maxHistorySize. now rewrite length_map. }
  assert (Hlen : List.length (history m') = 100%nat).
  { rewrite Hhist, length_skipn, length_map. lia. }
  assert (Hempty : history (Nat.iter 100 undo m') = []).
  { apply length_zero_iff_nil. rewrite iter_undo_history_length. lia. }
  repeat split; try assumption.
  - intros k Hk. replace k with ((k - 100) + 100)%nat by lia.
    rewrite Nat.iter_add. now apply iter_undo_empty.
  - now apply undo_empty.
Qed.

Lemma history_bound_fifo_witness :
  history (dispatchAll freshManager manyDispatches)
  = skipn 50 (map stamp manyDispatches)
  /\ undo (Nat.iter 100 undo (dispatchAll freshManager manyDispatches))
     = Nat.iter 100 undo (dispatchAll freshManager manyDispatches).
Proof.
  assert (H1 : (List.length (history freshManager) <= maxHistorySize)%nat)
    by (cbn; lia).
  assert (H2 : (100 < List.length manyDispatches)%nat)
    by (vm_compute; lia).
  pose proof (history_bound_fifo freshManager manyDispatches eq_refl H1 H2) as H.
  cbv zeta in H. destruct H as [Hh [_ [_ [_ Hu]]]].
  split; [exact Hh | exact Hu].
Defined.

(** The constructor keeps a supplied initial state: the state of
    [new StateManager({currentTool: "measure"})] differs from the default. *)
Lemma constructor_keeps_initial_state :
  AppState.currentTool (state (newStateManager (Some measureToolState) letterIds))
  = "measure"%string
  /\ AppState.currentTool
       (state (undo (dispatch (newStateManager (Some measureToolState) letterIds)
                       1 (CHANGE_TOOL "split"))))
     = "bar"%string.
Proof. split; reflexivity. Qed.

(** C1 fails on the code: [redo] re-executes the action through
    [executeAction], which empties the [future] buffer, so only the first of
    several [redo] calls has an effect: a second [redo] in a row never
    changes anything.  On a fresh manager, two dispatches
    (tool "split", then tool "join"), two [undo] and two [redo] end with the
    tool "split" and one logged action, not with the state after the two
    dispatches. *)
Theorem undo_redo_round_trip_fails :
  let m2 := dispatchAll freshManager twoToolChanges in
  let m' := redo (redo (undo (undo m2))) in
  AppState.currentTool (state m2) = "join"%string
  /\ AppState.currentTool (state m') = "split"%string
  /\ state m' <> state m2
  /\ history m' = [mkAction (CHANGE_TOOL "split") 1]
  /\ future (redo (undo (undo m2))) = []
  /\ (forall m : StateManager, future (redo m) = [])
  /\ (forall m : StateManager, redo (redo m) = redo m).
Proof.
  cbn zeta. repeat split; try reflexivity.
  - intros H. apply (f_equal AppState.currentTool) in H. discriminate H.
  - apply redo_future.
  - apply redo_twice.
Qed.

(** ** Batches and notification *)

Lemma invocations_app cb l1 l2 :
  invocations cb (l1 ++ l2) = (invocations cb l1 + invocations cb l2)%nat.
Proof. unfold invocations. now rewrite filter_app, length_app. Qed.

Lemma invocations_round_absent cb (s : AppState.t) subs :
  ~ In cb subs -> invocations cb (map (fun c => (c, s)) subs) = 0%nat.
Proof.
  unfold invocations. induction subs as [|c subs IH]; intros H; [reflexivity|].
  cbn. destruct (Nat.eqb_spec c cb) as [-> | Hne].
  - exfalso. apply H. now left.
  - apply IH. intros Hin. apply H. now right.
Qed.

(** One round of [notifySubscribers] calls every subscriber once. *)
Lemma invocations_round cb (s : AppState.t) subs :
  NoDup subs -> In cb subs -> invocations cb (map (fun c => (c, s)) subs) = 1%nat.
Proof.
  induction 1 as [|c subs Hnotin Hnodup IH]; intros Hin; [destruct Hin|].
  change (map (fun c0 => (c0, s)) (c :: subs))
    with ([(c, s)] ++ map (fun c0 => (c0, s)) subs).
  rewrite invocations_app. unfold invocations at 1. cbn.
  destruct (Nat.eqb_spec c cb) as [-> | Hne].
  - now rewrite invocations_round_absent.
  - destruct Hin as [-> | Hin]; [now elim Hne|]. now rewrite IH.
Qed.

Lemma setAdd_NoDup cb subs : NoDup subs -> NoDup (setAdd cb subs).
Proof.
  intros H. unfold setAdd. destruct (existsb (Nat.eqb cb) subs) eqn:E; [assumption|].
  apply NoDup_app; [assumption | repeat constructor; intros [] |].
  intros c Hc [<- | []].
  assert (existsb (Nat.eqb cb) subs = true); [|congruence].
  apply existsb_exists. exists cb. split; [assumption | apply Nat.eqb_refl].
Qed.

(** While a batch is open, [dispatch] only appends to [batchedActions]. *)
Lemma batch_dispatch_buffers (fn : list (Z * Payload)) :
  forall st h f subs ba g n,
    fold_left (fun m' c => dispatch m' (fst c) (snd c)) fn
      (mkStateManager st h f subs true ba g n)
    = mkStateManager st h f subs true (ba ++ map stamp fn) g n.
Proof.
  induction fn as [|[now p] fn IH]; intros; cbn [fold_left map].
  - now rewrite app_nil_r.
  - unfold dispatch at 2. cbn. rewrite IH, <- app_assoc. reflexivity.
Qed.

Lemma executeAll_subscribers (acts : list Action) : forall m,
  subscribers (fold_left executeAction acts m) = subscribers m.
Proof.
  induction acts as [|a acts IH]; intros m; cbn [fold_left]; [reflexivity|].
  now rewrite IH, executeAction_subscribers.
Qed.

Lemma executeAll_notified cb (acts : list Action) : forall m,
  NoDup (subscribers m) -> In cb (subscribers m) ->
  exists extra,
    notified (fold_left executeAction acts m) = notified m ++ extra
    /\ invocations cb extra = List.length acts.
Proof.
  induction acts as [|a acts IH]; intros m Hnd Hin; cbn [fold_left].
  - exists []. now rewrite app_nil_r.
  - destruct (IH (executeAction m a)) as [extra [Hn Hc]];
      try now rewrite executeAction_subscribers.
    exists (map (fun c => (c, state (executeAction m a))) (subscribers m) ++ extra).
    split.
    + now rewrite Hn, executeAction_notified, <- app_assoc.
    + rewrite invocations_app, Hc, invocations_round by assumption. reflexivity.
Qed.

Lemma executeAll_last_round (acts : list Action) m :
  acts <> [] ->
  exists pre,
    notified (fold_left executeAction acts m)
    = pre ++ map (fun c => (c, state (fold_left executeAction acts m)))
               (subscribers m).
Proof.
  intros H. destruct (exists_last H) as [acts' [a ->]].
  rewrite fold_left_app. cbn [fold_left].
  exists (notified (fold_left executeAction acts' m)).
  now rewrite executeAction_notified, executeAll_subscribers.
Qed.

Lemma batch_unfold m fn :
  let m3 := fold_left executeAction (map stamp fn)
              (mkStateManager (state m) (history m) (future m) (subscribers m)
                 true (map stamp fn) (idGen m) (notified m)) in
  batch m fn
  = mkStateManager (state m3) (history m3) (future m3) (subscribers m3)
      false [] (idGen m3) (notified m3).
Proof.
  unfold batch. rewrite batch_dispatch_buffers. cbn [app batchedActions].
  destruct (map stamp fn) eqn:E; reflexivity.
Qed.

Lemma executeAll_notified_length (acts : list Action) : forall m,
  exists extra,
    notified (fold_left executeAction acts m) = notified m ++ extra
    /\ List.length extra = (List.length acts * List.length (subscribers m))%nat.
Proof.
  induction acts as [|a acts IH]; intros m; cbn [fold_left].
  - exists []. now rewrite app_nil_r.
  - destruct (IH (executeAction m a)) as [extra [Hn Hc]].
    exists (map (fun c => (c, state (executeAction m a))) (subscribers m) ++ extra).
    split.
    + now rewrite Hn, executeAction_notified, <- app_assoc.
    + rewrite length_app, length_map, Hc, executeAction_subscribers. cbn. lia.
Qed.

(** C2 fails on the code: [batch] only defers the dispatches; afterwards it
    runs every buffered action through [executeAction], and each run
    notifies the subscribers.  A batch of two tool changes invokes the
    subscriber twice, with the states "split" and "join".  A drag of two
    selected bars, which [handleBarDrag] wraps in a batch, invokes it twice
    as well, the first time with a state in which only the first bar has
    moved.  In general a batch of k dispatches makes k rounds of
    notifications. *)
Theorem batch_notifies_every_action :
  (let m := subscribe freshManager 7%nat in
   invocations 7%nat (notifiedSince m (batch m twoToolChanges)) = 2%nat
   /\ map (fun n => AppState.currentTool (snd n))
          (notifiedSince m (batch m twoToolChanges))
      = ["split"%string; "join"%string])
  /\ (let m' := handleBarDrag dragManager (fun k => Z.of_nat k) 5 0 in
      invocations 7%nat (notifiedSince dragManager m') = 2%nat
      /\ map (fun n =>
                map (fun b => (FractionBarState.id b, FractionBarState.x b))
                    (AppState.bars (snd n)))
             (notifiedSince dragManager m')
         = [[("p"%string, 5); ("q"%string, 200)];
            [("p"%string, 5); ("q"%string, 205)]])
  /\ (forall (m : StateManager) (fn : list (Z * Payload)),
        List.length (notifiedSince m (batch m fn))
        = (List.length fn * List.length (subscribers m))%nat).
Proof.
  split; [|split].
  - vm_compute. split; reflexivity.
  - vm_compute. split; reflexivity.
  - intros m fn. rewrite batch_unfold. cbn zeta.
    set (m1 := mkStateManager (state m) (history m) (future m) (subscribers m)
                 true (map stamp fn) (idGen m) (notified m)).
    destruct (executeAll_notified_length (map stamp fn) m1) as [extra [Hn Hc]].
    unfold notifiedSince. cbn [notified]. rewrite Hn. cbn [notified m1].
    rewrite skipn_app, skipn_all, Nat.sub_diag. cbn [skipn app].
    now rewrite Hc, length_map.
Qed.

(** For every [batch(fn)] call in which [fn] dispatches k actions, every
    subscriber's callback is invoked k times, once per action; when k >= 1
    the last round of invocations carries the final post-batch state; and
    each of the k actions is appended to the bounded history log as an
    entry of its own. *)
Theorem batch_notifies_once_per_action (m : StateManager)
    (fn : list (Z * Payload)) (cb : StateChangeCallback) :
  NoDup (subscribers m) ->
  In cb (subscribers m) ->
  (List.length (history m) <= maxHistorySize)%nat ->
  invocations cb (notifiedSince m (batch m fn)) = List.length fn
  /\ (fn <> [] ->
      exists pre,
        notified (batch m fn)
        = pre ++ map (fun c => (c, state (batch m fn))) (subscribers m))
  /\ history (batch m fn) = lastN maxHistorySize (history m ++ map stamp fn)
  /\ batchOperation (batch m fn) = false
  /\ batchedActions (batch m fn) = [].
Proof.
  intros Hnd Hin Hh. rewrite batch_unfold. cbn zeta.
  cbn [state history notified batchOperation batchedActions].
  set (m1 := mkStateManager (state m) (history m) (future m) (subscribers m)
               true (map stamp fn) (idGen m) (notified m)).
  repeat split.
  - destruct (executeAll_notified cb (map stamp fn) m1 Hnd Hin) as [extra [Hn Hc]].
    unfold notifiedSince. cbn [notified]. rewrite Hn. cbn [notified m1].
    rewrite skipn_app, skipn_all, Nat.sub_diag. cbn [skipn app].
    now rewrite Hc, length_map.
  - intros Hfn.
    apply (executeAll_last_round (map stamp fn) m1).
    intros E. apply map_eq_nil in E. now apply Hfn.
  - now rewrite (executeAll_history (map stamp fn) m1 Hh).
Qed.

Lemma batch_notifies_once_per_action_witness :
  invocations 7%nat
    (notifiedSince (subscribe freshManager 7%nat)
       (batch (subscribe freshManager 7%nat) twoToolChanges))
  = List.length twoToolChanges.
Proof.
  assert (Hnd : NoDup (subscribers (subscribe freshManager 7%nat))).
  { apply (setAdd_NoDup 7%nat []). constructor. }
  assert (Hin : In 7%nat (subscribers (subscribe freshManager 7%nat))).
  { cbn. now left. }
  assert (Hh : (List.length (history (subscribe freshManager 7%nat)) <= maxHistorySize)%nat).
  { cbn. lia. }
  exact (proj1 (batch_notifies_once_per_action _ twoToolChanges 7%nat Hnd Hin Hh)).
Defined.

(** ** Single-pointer move classification *)

Lemma Qlt_bool_iff (a b : Q) : Qlt_bool a b = true <-> a < b.
Proof.
  unfold Qlt_bool. rewrite negb_true_iff. split.
  - intros H. apply Qnot_le_lt. intros Hle.
    apply Qle_bool_iff in Hle. congruence.
  - intros H. destruct (Qle_bool b a) eqn:E; [|reflexivity].
    apply Qle_bool_iff in E. exfalso. now apply (Qlt_not_le a b).
Qed.

Lemma Qlt_bool_false_iff (a b : Q) : Qlt_bool a b = false <-> b <= a.
Proof.
  unfold Qlt_bool. rewrite negb_false_iff. apply Qle_bool_iff.
Qed.

(** For non-negative operands, [a / b > 2] as JavaScript evaluates it (a
    zero divisor gives Infinity or NaN) says that [a] exceeds twice [b]. *)
Lemma jsGt_jsDiv_2 (a b : Q) :
  0 <= a -> 0 <= b -> (jsGt (jsDiv a b) 2 = true <-> 2 * b < a).
Proof.
  intros Ha Hb. unfold jsDiv.
  destruct (Qeq_bool b 0) eqn:Eb.
  - apply Qeq_bool_iff in Eb.
    destruct (Qeq_bool a 0) eqn:Ea.
    + apply Qeq_bool_iff in Ea. cbn. rewrite Eb, Ea. split; [discriminate|].
      intros H. exfalso. revert H. apply Qle_not_lt. unfold Qle; cbn; lia.
    + apply Qeq_bool_neq in Ea.
      assert (Hpos : 0 < a).
      { apply Qle_lt_or_eq in Ha. destruct Ha as [Ha | Ha]; [assumption|].
        exfalso. apply Ea. now symmetry. }
      apply Qle_bool_iff in Ha. rewrite Ha. cbn. rewrite Eb.
      split; [intros _ | reflexivity].
      setoid_replace (2 * 0) with 0 by ring. assumption.
  - apply Qeq_bool_neq in Eb.
    assert (Hpos : 0 < b).
    { apply Qle_lt_or_eq in Hb. destruct Hb as [Hb | Hb]; [assumption|].
      exfalso. apply Eb. now symmetry. }
    cbn. rewrite Qlt_bool_iff. split.
    + intros H. apply (Qmult_lt_r _ _ b Hpos) in H.
      setoid_replace (a / b * b) with a in H by (field; assumption).
      assumption.
    + intros H. apply Qlt_shift_div_l; assumption.
Qed.

(** C7: with exactly one pointer active (and the split and drag callbacks
    set), a move emits nothing when both [|deltaX|] and [|deltaY|] are
    within the 10 px threshold; otherwise a vertical split at the current
    point when [|deltaY| / |deltaX| > 2]; otherwise a horizontal split at
    the current point when [|deltaX| / |deltaY| > 2]; otherwise a drag
    carrying [(deltaX, deltaY)]. *)
Theorem single_pointer_move_classification (m : TouchInteractionManager)
    (k : Z) (touch : TouchPoint) :
  activeTouches m = [(k, touch)] ->
  onBarSplit m = true ->
  onBarDrag m = true ->
  let deltaX := currentX touch - startX touch in
  let deltaY := currentY touch - startY touch in
  let inDeadZone :=
    Qabs deltaX <= DRAG_THRESHOLD /\ Qabs deltaY <= DRAG_THRESHOLD in
  let vertical := jsGt (jsDiv (Qabs deltaY) (Qabs deltaX)) 2 in
  let horizontal := jsGt (jsDiv (Qabs deltaX) (Qabs deltaY)) 2 in
  (inDeadZone -> handleSingleTouchMove m = Some [])
  /\ (~ inDeadZone -> vertical = true ->
      handleSingleTouchMove m
      = Some [BarSplit (currentX touch) (currentY touch) true])
  /\ (~ inDeadZone -> vertical = false -> horizontal = true ->
      handleSingleTouchMove m
      = Some [BarSplit (currentX touch) (currentY touch) false])
  /\ (~ inDeadZone -> vertical = false -> horizontal = false ->
      handleSingleTouchMove m = Some [BarDrag deltaX deltaY])
  /\ (vertical = true <-> 2 * Qabs deltaX < Qabs deltaY)
  /\ (horizontal = true <-> 2 * Qabs deltaY < Qabs deltaX).
Proof.
  intros Hact Hsplit Hdrag deltaX deltaY inDeadZone vertical horizontal.
  assert (Hzone : Qlt_bool DRAG_THRESHOLD (Qabs deltaX)
                  || Qlt_bool DRAG_THRESHOLD (Qabs deltaY) = false
                  <-> inDeadZone).
  { rewrite orb_false_iff, !Qlt_bool_false_iff. reflexivity. }
  assert (Hout : ~ inDeadZone ->
                 Qlt_bool DRAG_THRESHOLD (Qabs deltaX)
                 || Qlt_bool DRAG_THRESHOLD (Qabs deltaY) = true).
  { intros Hn. apply not_false_is_true. intros E. apply Hn. now apply Hzone. }
  unfold handleSingleTouchMove. rewrite Hact, Hsplit, Hdrag.
  fold deltaX deltaY. fold vertical horizontal.
  repeat split.
  - intros Hin. apply Hzone in Hin. now rewrite Hin.
  - intros Hn Hv. now rewrite (Hout Hn), Hv.
  - intros Hn Hv Hh. now rewrite (Hout Hn), Hv, Hh.
  - intros Hn Hv Hh. now rewrite (Hout Hn), Hv, Hh.
  - apply jsGt_jsDiv_2; apply Qabs_nonneg.
  - apply jsGt_jsDiv_2; apply Qabs_nonneg.
  - apply jsGt_jsDiv_2; apply Qabs_nonneg.
  - apply jsGt_jsDiv_2; apply Qabs_nonneg.
Qed.

(** The four moves of the specification: to (2,20), (20,2), (15,15) and
    (3,3), each from (0,0). *)
Lemma single_pointer_move_classification_witness :
  handleSingleTouchMove (pointerMovedTo 2 20) = Some [BarSplit 2 20 true]
  /\ handleSingleTouchMove (pointerMovedTo 20 2) = Some [BarSplit 20 2 false]
  /\ handleSingleTouchMove (pointerMovedTo 15 15) = Some [BarDrag 15 15]
  /\ handleSingleTouchMove (pointerMovedTo 3 3) = Some [].
Proof.
  split; [|split; [|split]].
  - apply (single_pointer_move_classification (pointerMovedTo 2 20) 0
             (mkTouchPoint 0 0 0 2 20 0) eq_refl eq_refl eq_refl).
    + intros [_ H]. revert H. unfold Qle. cbn. lia.
    + reflexivity.
  - apply (single_pointer_move_classification (pointerMovedTo 20 2) 0
             (mkTouchPoint 0 0 0 20 2 0) eq_refl eq_refl eq_refl).
    + intros [H _]. revert H. unfold Qle. cbn. lia.
    + reflexivity.
    + reflexivity.
  - apply (single_pointer_move_classification (pointerMovedTo 15 15) 0
             (mkTouchPoint 0 0 0 15 15 0) eq_refl eq_refl eq_refl).
    + intros [H _]. revert H. unfold Qle. cbn. lia.
    + reflexivity.
    + reflexivity.
  - apply (single_pointer_move_classification (pointerMovedTo 3 3) 0
             (mkTouchPoint 0 0 0 3 3 0) eq_refl eq_refl eq_refl).
    split; unfold Qle; cbn; lia.
Defined.

(** * Further properties of the state manager *)

(** ** REMOVE_BAR *)

(** X1: REMOVE_BAR takes every bar with the id out of the collection, takes the
    id out of [selectedBarIds] and never leaves it as [unitBarId]; all other
    bars and selected ids are kept, in their order and number, and tool,
    settings, version and a different [unitBarId] are unchanged. *)
Theorem remove_bar_effect (thisState : AppState.t) (g : IdGen) (s : AppState.t)
    (i : string) (t : Z) :
  let s' := fst (reducer thisState g s (mkAction (REMOVE_BAR i) t)) in
  AppState.bars s'
  = filter (fun b => negb (String.eqb (FractionBarState.id b) i))
           (AppState.bars s)
  /\ AppState.selectedBarIds s'
     = filter (fun j => negb (String.eqb j i)) (AppState.selectedBarIds s)
  /\ (forall b, In b (AppState.bars s')
                <-> In b (AppState.bars s) /\ FractionBarState.id b <> i)
  /\ (forall j, In j (AppState.selectedBarIds s')
                <-> In j (AppState.selectedBarIds s) /\ j <> i)
  /\ AppState.unitBarId s' <> Some i
  /\ (AppState.unitBarId s <> Some i ->
      AppState.unitBarId s' = AppState.unitBarId s)
  /\ AppState.currentTool s' = AppState.currentTool s
  /\ AppState.settings s' = AppState.settings s
  /\ AppState.version s' = AppState.version s.
Proof.
  cbn. repeat split; try reflexivity.
  - apply filter_In in H. tauto.
  - apply filter_In in H. destruct H as [_ H].
    now apply negb_true_iff, String.eqb_neq in H.
  - intros [Hin Hne]. apply filter_In. split; [assumption|].
    now apply negb_true_iff, String.eqb_neq.
  - apply filter_In in H. tauto.
  - apply filter_In in H. destruct H as [_ H].
    now apply negb_true_iff, String.eqb_neq in H.
  - intros [Hin Hne]. apply filter_In. split; [assumption|].
    now apply negb_true_iff, String.eqb_neq.
  - destruct (AppState.unitBarId s) as [u|]; [|discriminate].
    destruct (String.eqb u i) eqn:E; [discriminate|].
    apply String.eqb_neq in E. congruence.
  - intros Hne. destruct (AppState.unitBarId s) as [u|]; [|reflexivity].
    destruct (String.eqb u i) eqn:E; [|reflexivity].
    apply String.eqb_eq in E. subst u. now elim Hne.
Qed.

Lemma filter_idempotent {A} (f : A -> bool) (l : list A) :
  filter f (filter f l) = filter f l.
Proof.
  apply filter_all. intros a Ha. apply filter_In in Ha. tauto.
Qed.

(** X2: REMOVE_BAR is idempotent: removing the same id a second time returns
    the state unchanged. *)
Theorem remove_bar_idempotent (thisState : AppState.t) (g : IdGen)
    (s : AppState.t) (i : string) (t t' : Z) :
  let s' := fst (reducer thisState g s (mkAction (REMOVE_BAR i) t)) in
  fst (reducer thisState g s' (mkAction (REMOVE_BAR i) t')) = s'.
Proof.
  cbn. unfold withUnitBarId, withSelectedBarIds, withBars; cbn.
  rewrite !filter_idempotent. f_equal.
  destruct (AppState.unitBarId s) as [u|]; [|reflexivity].
  destruct (String.eqb u i) eqn:E; [reflexivity|]. now rewrite E.
Qed.

(** ** SPLIT_BAR *)

(** X3: SPLIT_BAR replaces the splits of every bar with the id by the payload
    and touches nothing else: the bars keep their number, order, ids and
    all other fields, bars with another id are unchanged, and so is the
    rest of the state. *)
Theorem split_bar_effect (thisState : AppState.t) (g : IdGen) (s : AppState.t)
    (i : string) (splits : list SplitState.t) (t : Z) :
  let s' := fst (reducer thisState g s (mkAction (SPLIT_BAR i splits) t)) in
  Forall2
    (fun b b' =>
       (FractionBarState.id b = i -> FractionBarState.splits b' = splits)
       /\ (FractionBarState.id b <> i -> b' = b)
       /\ FractionBarState.id b' = FractionBarState.id b
       /\ FractionBarState.x b' = FractionBarState.x b
       /\ FractionBarState.y b' = FractionBarState.y b
       /\ FractionBarState.width b' = FractionBarState.width b
       /\ FractionBarState.height b' = FractionBarState.height b
       /\ FractionBarState.color b' = FractionBarState.color b
       /\ FractionBarState.isSelected b' = FractionBarState.isSelected b
       /\ FractionBarState.isUnitBar b' = FractionBarState.isUnitBar b
       /\ FractionBarState.label b' = FractionBarState.label b
       /\ FractionBarState.fraction b' = FractionBarState.fraction b)
    (AppState.bars s) (AppState.bars s')
  /\ AppState.selectedBarIds s' = AppState.selectedBarIds s
  /\ AppState.unitBarId s' = AppState.unitBarId s
  /\ AppState.currentTool s' = AppState.currentTool s
  /\ AppState.settings s' = AppState.settings s.
Proof.
  cbn. repeat split; try reflexivity.
  induction (AppState.bars s) as [|b l IH]; cbn; constructor; [|exact IH].
  destruct (String.eqb (FractionBarState.id b) i) eqn:E.
  - apply String.eqb_eq in E. destruct b; cbn in *.
    repeat split; try reflexivity. intros Hne. now elim Hne.
  - apply String.eqb_neq in E. repeat split; try reflexivity.
    intros Hi. now elim E.
Qed.

(** ** The redo buffer *)

(** X4: A dispatch outside a batch abandons the redo branch: the [future]
    buffer is empty afterwards and a following [redo] changes nothing. *)
Theorem dispatch_abandons_redo (m : StateManager) (now : Z) (p : Payload) :
  batchOperation m = false ->
  future (dispatch m now p) = []
  /\ redo (dispatch m now p) = dispatch m now p.
Proof.
  intros Hb. rewrite (dispatch_unbatched _ _ _ Hb).
  assert (H : future (executeAction m (mkAction p now)) = [])
    by apply executeAction_future.
  split; [assumption|]. unfold redo. now rewrite H.
Qed.

Lemma dispatch_abandons_redo_witness :
  redo (dispatch (undo (dispatchAll freshManager twoToolChanges)) 3
          (CHANGE_TOOL "measure"))
  = dispatch (undo (dispatchAll freshManager twoToolChanges)) 3
      (CHANGE_TOOL "measure").
Proof.
  exact (proj2 (dispatch_abandons_redo
                  (undo (dispatchAll freshManager twoToolChanges)) 3
                  (CHANGE_TOOL "measure") eq_refl)).
Defined.

Lemma undo_future m h a :
  history m = h ++ [a] -> future (undo m) = future m ++ [a].
Proof. intros H. now rewrite (undo_unfold m h a H). Qed.

Lemma redo_unfold m f a :
  future m = f ++ [a] ->
  redo m
  = executeAction
      (mkStateManager (state m) (history m) f (subscribers m)
         (batchOperation m) (batchedActions m) (idGen m) (notified m))
      a.
Proof.
  intros H. unfold redo. now rewrite H, rev_unit, removelast_last.
Qed.

(** X5: [undo] moves the most recent action from the log to the redo buffer,
    and one [redo] puts it back: after [undo] then [redo] the log is what
    it was.  The redo buffer is empty afterwards, whatever it held before. *)
Theorem undo_redo_restores_log (m : StateManager) (h : list Action) (a : Action) :
  history m = h ++ [a] ->
  (List.length (history m) <= maxHistorySize)%nat ->
  history (undo m) = h
  /\ future (undo m) = future m ++ [a]
  /\ history (redo (undo m)) = history m
  /\ future (redo (undo m)) = [].
Proof.
  intros Hh Hlen.
  assert (H1 : history (undo m) = h) by now rewrite undo_history, Hh, removelast_last.
  assert (H2 : future (undo m) = future m ++ [a]) by now apply (undo_future m h a).
  repeat split; try assumption.
  - rewrite (redo_unfold _ _ _ H2), executeAction_history. cbn [history].
    rewrite H1, pushHistory_lastN.
    + rewrite Hh. apply lastN_short. now rewrite <- Hh.
    + rewrite Hh, length_app in Hlen. cbn in Hlen. lia.
  - apply redo_future.
Qed.

Lemma undo_redo_restores_log_witness :
  history (redo (undo (dispatchAll freshManager twoToolChanges)))
  = history (dispatchAll freshManager twoToolChanges).
Proof.
  assert (Hlen : (List.length (history (dispatchAll freshManager twoToolChanges))
                  <= maxHistorySize)%nat) by (vm_compute; lia).
  exact (proj1 (proj2 (proj2
           (undo_redo_restores_log (dispatchAll freshManager twoToolChanges)
              [mkAction (CHANGE_TOOL "split") 1] (mkAction (CHANGE_TOOL "join") 2)
              eq_refl Hlen)))).
Defined.

(** ** Undo as replay *)

Lemma reducer_self_contained thisState thisState' g g' s a :
  selfContained (payload a) = true ->
  fst (reducer thisState g s a) = fst (reducer thisState' g' s a).
Proof.
  intros H. unfold reducer. destruct (payload a) as [d| | | | | | |]; try reflexivity.
  cbn in H. apply andb_true_iff in H. destruct H as [H Hc].
  apply andb_true_iff in H. destruct H as [Hi Hh].
  destruct d as [[i|] x y w [h|] [c|] sel u lab fr sp]; try discriminate.
  reflexivity.
Qed.

Lemma replay_self_contained (acts : list Action) :
  forall thisState thisState' g g' s,
    forallb (fun a => selfContained (payload a)) acts = true ->
    fst (replay thisState g s acts) = fst (replay thisState' g' s acts).
Proof.
  induction acts as [|a acts IH]; intros ts ts' g g' s H; [reflexivity|].
  cbn in H. apply andb_true_iff in H. destruct H as [Ha Hacts].
  cbn [replay].
  pose proof (reducer_self_contained ts ts' g g' s a Ha) as E.
  destruct (reducer ts g s a) as [s1 g1], (reducer ts' g' s a) as [s2 g2].
  cbn in E. subst s2. now apply IH.
Qed.

Lemma replay_app thisState (l1 l2 : list Action) : forall g s,
  replay thisState g s (l1 ++ l2)
  = replay thisState (snd (replay thisState g s l1))
      (fst (replay thisState g s l1)) l2.
Proof.
  induction l1 as [|a l1 IH]; intros g s; [reflexivity|].
  cbn [app replay]. destruct (reducer thisState g s a) as [s1 g1]. apply IH.
Qed.

(** With self-contained actions, executing a sequence is the replay of the
    sequence. *)
Lemma executeAll_state (acts : list Action) : forall m thisState g,
  forallb (fun a => selfContained (payload a)) acts = true ->
  state (fold_left executeAction acts m)
  = fst (replay thisState g (state m) acts).
Proof.
  induction acts as [|a acts IH]; intros m ts g H; [reflexivity|].
  cbn in H. apply andb_true_iff in H. destruct H as [Ha Hacts].
  cbn [fold_left replay].
  rewrite (IH (executeAction m a) ts g Hacts), executeAction_state.
  pose proof (reducer_self_contained (state m) ts (idGen m) g (state m) a Ha) as E.
  destruct (reducer ts g (state m) a) as [s1 g1]. cbn in E. rewrite E.
  now apply replay_self_contained.
Qed.

Lemma forallb_map_stamp (l : list (Z * Payload)) :
  forallb (fun a => selfContained (payload a)) (map stamp l)
  = forallb (fun c => selfContained (snd c)) l.
Proof. induction l as [|c l IH]; cbn; [reflexivity | now rewrite IH]. Qed.

(** C9: [undo] rebuilds the state by replaying the remaining history from
    the built-in default state, whatever initial state the constructor was
    given.  When the log is not empty the new state is the replay of the
    log without its last action, started from [defaultState].  For a
    manager constructed with any initial state, one dispatch followed by
    [undo] yields the default state; and after several dispatches of
    self-contained actions [undo] yields the state that a manager created
    without initial state reaches by the dispatches before the last one:
    every remaining action is applied again, and nothing of the
    constructor's initial state is left. *)
Theorem undo_replays_from_default_state :
  (forall m : StateManager,
      state (undo m)
      = match history m with
        | [] => state m
        | _ :: _ =>
            fst (replay (state m) (idGen m) defaultState (removelast (history m)))
        end)
  /\ (forall (initialState : option PartialAppState.t) (g : IdGen) (now : Z)
             (p : Payload),
        state (undo (dispatch (newStateManager initialState g) now p))
        = defaultState)
  /\ (forall (initialState : option PartialAppState.t) (g g' : IdGen)
             (l : list (Z * Payload)) (c : Z * Payload),
        forallb (fun c => selfContained (snd c)) l = true ->
        (List.length l < maxHistorySize)%nat ->
        state (undo (dispatchAll (newStateManager initialState g) (l ++ [c])))
        = state (dispatchAll (newStateManager None g') l)).
Proof.
  split; [|split].
  - intros m. destruct (history m) as [|a0 h0] eqn:E.
    + now rewrite (undo_empty m E).
    + destruct (exists_last (l := a0 :: h0)) as [h [a Hh]]; [discriminate|].
      rewrite Hh in *. rewrite (undo_unfold m h a E), removelast_last. reflexivity.
  - intros initialState g now p.
    rewrite (dispatch_unbatched (newStateManager initialState g) now p eq_refl).
    rewrite (undo_unfold _ [] (mkAction p now)); [reflexivity|].
    now rewrite executeAction_history.
  - intros initialState g g' l c Hsc Hlen.
    set (m := dispatchAll (newStateManager initialState g) (l ++ [c])).
    assert (Hh : history m = map stamp l ++ [stamp c]).
    { subst m. rewrite dispatchAll_unbatched by reflexivity.
      rewrite executeAll_history by (cbn; lia). cbn [history newStateManager app].
      rewrite map_app. apply lastN_short.
      rewrite length_app, length_map. cbn. unfold maxHistorySize in *. lia. }
    rewrite (undo_unfold m _ _ Hh). cbn [state updateState notifySubscribers].
    rewrite dispatchAll_unbatched by reflexivity.
    rewrite (executeAll_state (map stamp l) _ (state m) (idGen m))
      by now rewrite forallb_map_stamp.
    reflexivity.
Qed.

(** A manager constructed with the tool "measure": after ADD_BAR of a whole
    bar and a change of tool, [undo] yields the state of a default manager
    that received the ADD_BAR alone, tool "bar" and one bar. *)
Lemma undo_replays_from_default_state_witness :
  state
    (undo
       (dispatchAll (newStateManager (Some measureToolState) letterIds)
          ([(1%Z, ADD_BAR (barDataOf joinBarA))] ++ [(2%Z, CHANGE_TOOL "split")])))
  = state
      (dispatchAll (newStateManager None letterIds)
         [(1%Z, ADD_BAR (barDataOf joinBarA))]).
Proof.
  apply (proj2 (proj2 undo_replays_from_default_state)).
  - reflexivity.
  - cbn. unfold maxHistorySize. lia.
Defined.

(** X6: On a manager created without initial state, [undo] reverts the last
    dispatched action: after at most 100 dispatches whose earlier actions
    are self-contained (no ADD_BAR that relies on a generated id or on the
    default height and colour), [undo] yields the state that the dispatches
    before the last one had produced. *)
Theorem undo_reverts_last_dispatch (g : IdGen) (l : list (Z * Payload))
    (c : Z * Payload) :
  forallb (fun c => selfContained (snd c)) l = true ->
  (List.length l < maxHistorySize)%nat ->
  state (undo (dispatchAll (newStateManager None g) (l ++ [c])))
  = state (dispatchAll (newStateManager None g) l).
Proof.
  intros Hsc Hlen.
  set (m := dispatchAll (newStateManager None g) (l ++ [c])).
  assert (Hh : history m = map stamp l ++ [stamp c]).
  { subst m. rewrite dispatchAll_unbatched by reflexivity.
    rewrite executeAll_history by (cbn; lia). cbn [history newStateManager app].
    rewrite map_app. apply lastN_short.
    rewrite length_app, length_map. cbn. unfold maxHistorySize in *. lia. }
  rewrite (undo_unfold m _ _ Hh). cbn [state updateState notifySubscribers].
  rewrite dispatchAll_unbatched by reflexivity.
  rewrite (executeAll_state (map stamp l) _ (state m) (idGen m))
    by now rewrite forallb_map_stamp.
  reflexivity.
Qed.

Lemma undo_reverts_last_dispatch_witness :
  state (undo (dispatchAll (newStateManager None letterIds)
                 ([(1%Z, ADD_BAR
                           (PartialBar.mk (Some "x"%string) None None None
                              (Some 60) (Some "#FFFF66"%string) None None None
                              None None))]
                  ++ [(2%Z, ADD_BAR PartialBar.empty)])))
  = state (dispatchAll (newStateManager None letterIds)
             [(1%Z, ADD_BAR
                      (PartialBar.mk (Some "x"%string) None None None
                         (Some 60) (Some "#FFFF66"%string) None None None
                         None None))]).
Proof.
  apply undo_reverts_last_dispatch; [reflexivity | cbn; unfold maxHistorySize; lia].
Defined.

(** X7: On a manager created without initial state, one [undo] followed by one
    [redo] restores the state, after between 1 and 100 dispatches of
    self-contained actions. *)
Theorem undo_redo_once_restores_state (g : IdGen) (l : list (Z * Payload)) :
  forallb (fun c => selfContained (snd c)) l = true ->
  l <> [] ->
  (List.length l <= maxHistorySize)%nat ->
  state (redo (undo (dispatchAll (newStateManager None g) l)))
  = state (dispatchAll (newStateManager None g) l).
Proof.
  intros Hsc Hne Hlen.
  destruct (exists_last Hne) as [l' [c ->]].
  set (m := dispatchAll (newStateManager None g) (l' ++ [c])).
  rewrite forallb_app in Hsc. apply andb_true_iff in Hsc.
  destruct Hsc as [Hl' Hc]. cbn in Hc. rewrite andb_true_r in Hc.
  rewrite length_app in Hlen. cbn in Hlen.
  assert (Hh : history m = map stamp l' ++ [stamp c]).
  { subst m. rewrite dispatchAll_unbatched by reflexivity.
    rewrite executeAll_history by (cbn; lia). cbn [history newStateManager app].
    rewrite map_app. apply lastN_short.
    rewrite length_app, length_map. cbn. lia. }
  assert (Hf : future (undo m) = future m ++ [stamp c])
    by now apply (undo_future m _ _ Hh).
  rewrite (redo_unfold _ _ _ Hf), executeAction_state. cbn [state idGen].
  assert (Hu : state (undo m)
               = state (dispatchAll (newStateManager None g) l')).
  { rewrite (undo_unfold m _ _ Hh). cbn [state updateState notifySubscribers].
    rewrite dispatchAll_unbatched by reflexivity.
    rewrite (executeAll_state (map stamp l') _ (state m) (idGen m))
      by now rewrite forallb_map_stamp.
    reflexivity. }
  rewrite Hu. subst m.
  rewrite !dispatchAll_unbatched by reflexivity.
  rewrite map_app, fold_left_app. cbn [map fold_left].
  rewrite executeAction_state.
  now apply reducer_self_contained.
Qed.

Lemma undo_redo_once_restores_state_witness :
  state (redo (undo (dispatchAll (newStateManager None letterIds) twoToolChanges)))
  = state (dispatchAll (newStateManager None letterIds) twoToolChanges).
Proof.
  apply undo_redo_once_restores_state;
    [reflexivity | discriminate | cbn; unfold maxHistorySize; lia].
Defined.

(** ** Batches *)

Lemma executeAction_batch_fields m a b ba :
  executeAction
    (mkStateManager (state m) (history m) (future m) (subscribers m) b ba
       (idGen m) (notified m)) a
  = let m' := executeAction m a in
    mkStateManager (state m') (history m') (future m') (subscribers m') b ba
      (idGen m') (notified m').
Proof.
  unfold executeAction. cbn.
  now destruct (reducer (state m) (idGen m) (state m) a).
Qed.

Lemma executeAll_batch_fields (acts : list Action) : forall m b ba,
  fold_left executeAction acts
    (mkStateManager (state m) (history m) (future m) (subscribers m) b ba
       (idGen m) (notified m))
  = let m' := fold_left executeAction acts m in
    mkStateManager (state m') (history m') (future m') (subscribers m') b ba
      (idGen m') (notified m').
Proof.
  induction acts as [|a acts IH]; intros m b ba; cbn [fold_left]; [reflexivity|].
  rewrite executeAction_batch_fields. cbn zeta.
  apply (IH (executeAction m a) b ba).
Qed.

Lemma executeAll_batchOperation (acts : list Action) : forall m,
  batchOperation (fold_left executeAction acts m) = batchOperation m
  /\ batchedActions (fold_left executeAction acts m) = batchedActions m.
Proof.
  induction acts as [|a acts IH]; intros m; cbn [fold_left]; [now split|].
  destruct (IH (executeAction m a)) as [H1 H2]. rewrite H1, H2.
  unfold executeAction. now destruct (reducer (state m) (idGen m) (state m) a).
Qed.

Lemma batch_as_executeAll (m : StateManager) (callback : list (Z * Payload)) :
  batchOperation m = false ->
  batchedActions m = [] ->
  batch m callback = fold_left executeAction (map stamp callback) m.
Proof.
  intros Hb Hba. rewrite batch_unfold. cbn zeta.
  rewrite executeAll_batch_fields. cbn zeta.
  cbn [state history future subscribers idGen notified].
  destruct (executeAll_batchOperation (map stamp callback) m) as [H1 H2].
  rewrite Hb in H1. rewrite Hba in H2.
  destruct (fold_left executeAction (map stamp callback) m); cbn in *.
  now subst.
Qed.

(** X8: When no batch is open, [batch] with a callback that makes some
    [dispatch] calls leaves the log, the redo buffer and the subscribers as
    the same [dispatch] calls made one after the other without a batch do;
    when the dispatched actions are self-contained (none reads a generated
    id), the state and the notifications the subscribers received are the
    same as well. *)
Theorem batch_is_sequential_dispatch (m : StateManager)
    (callback : list (Z * Payload)) :
  batchOperation m = false ->
  batchedActions m = [] ->
  history (batch m callback) = history (dispatchAll m callback)
  /\ future (batch m callback) = future (dispatchAll m callback)
  /\ subscribers (batch m callback) = subscribers (dispatchAll m callback)
  /\ (forallb (fun c => selfContained (snd c)) callback = true ->
      state (batch m callback) = state (dispatchAll m callback)
      /\ notified (batch m callback) = notified (dispatchAll m callback)).
Proof.
  intros Hb Hba.
  rewrite (batch_as_executeAll m callback Hb Hba),
    (dispatchAll_unbatched callback m Hb).
  now repeat split.
Qed.

Lemma batch_is_sequential_dispatch_witness :
  state (batch dragManager twoToolChanges)
  = state (dispatchAll dragManager twoToolChanges)
  /\ notified (batch dragManager twoToolChanges)
     = notified (dispatchAll dragManager twoToolChanges).
Proof.
  apply (batch_is_sequential_dispatch dragManager twoToolChanges eq_refl eq_refl).
  reflexivity.
Defined.

(** ** Subscribers *)

Lemma setAdd_In cb subs : In cb (setAdd cb subs).
Proof.
  unfold setAdd. destruct (existsb (Nat.eqb cb) subs) eqn:E.
  - apply existsb_exists in E. destruct E as [c [Hc E]].
    apply Nat.eqb_eq in E. now subst.
  - apply in_or_app. right. now left.
Qed.

Lemma setAdd_present cb subs : In cb subs -> setAdd cb subs = subs.
Proof.
  intros H. unfold setAdd.
  replace (existsb (Nat.eqb cb) subs) with true; [reflexivity|].
  symmetry. apply existsb_exists. exists cb. split; [assumption | apply Nat.eqb_refl].
Qed.

Lemma notifiedSince_app m m' extra :
  notified m' = notified m ++ extra -> notifiedSince m m' = extra.
Proof.
  intros H. unfold notifiedSince.
  now rewrite H, skipn_app, skipn_all, Nat.sub_diag.
Qed.

(** X9: [subscribe] calls the new callback at once with the current state and
    changes neither state nor log.  The subscribers form a set: subscribing
    a callback again calls it again but registers it only once, so that a
    later state update invokes it exactly once. *)
Theorem subscribe_twice_notifies_once (m : StateManager)
    (cb : StateChangeCallback) (a : Action) :
  NoDup (subscribers m) ->
  let m1 := subscribe m cb in
  let m2 := subscribe m1 cb in
  notifiedSince m m1 = [(cb, state m)]
  /\ notifiedSince m1 m2 = [(cb, state m)]
  /\ subscribers m2 = subscribers m1
  /\ state m2 = state m /\ history m2 = history m /\ future m2 = future m
  /\ invocations cb (notifiedSince m2 (executeAction m2 a)) = 1%nat.
Proof.
  intros Hnd m1 m2.
  assert (Hsub : subscribers m2 = subscribers m1).
  { subst m2 m1. cbn. apply setAdd_present, setAdd_In. }
  repeat split; try assumption.
  - now apply notifiedSince_app.
  - now apply notifiedSince_app.
  - rewrite (notifiedSince_app _ _ _ (executeAction_notified m2 a)).
    apply invocations_round.
    + rewrite Hsub. subst m1. cbn. now apply setAdd_NoDup.
    + rewrite Hsub. subst m1. cbn. apply setAdd_In.
Qed.

Lemma subscribe_twice_notifies_once_witness :
  invocations 7%nat
    (notifiedSince (subscribe (subscribe freshManager 7%nat) 7%nat)
       (executeAction (subscribe (subscribe freshManager 7%nat) 7%nat)
          (mkAction (CHANGE_TOOL "split") 1)))
  = 1%nat.
Proof.
  assert (Hnd : NoDup (subscribers freshManager)) by constructor.
  apply (subscribe_twice_notifies_once freshManager 7%nat
           (mkAction (CHANGE_TOOL "split") 1) Hnd).
Defined.

Lemma executeAll_notified_absent cb (acts : list Action) : forall m,
  ~ In cb (subscribers m) ->
  invocations cb (notifiedSince m (fold_left executeAction acts m)) = 0%nat.
Proof.
  intros m Hnot.
  assert (H : forall m0, ~ In cb (subscribers m0) ->
            exists extra,
              notified (fold_left executeAction acts m0) = notified m0 ++ extra
              /\ invocations cb extra = 0%nat).
  { induction acts as [|a acts IH]; intros m0 H0; cbn [fold_left].
    - exists []. now rewrite app_nil_r.
    - destruct (IH (executeAction m0 a)) as [extra [Hn Hc]];
        [now rewrite executeAction_subscribers|].
      exists (map (fun c => (c, state (executeAction m0 a))) (subscribers m0) ++ extra).
      split.
      + now rewrite Hn, executeAction_notified, <- app_assoc.
      + rewrite invocations_app, Hc, invocations_round_absent by assumption.
        reflexivity. }
  destruct (H m Hnot) as [extra [Hn Hc]].
  now rewrite (notifiedSince_app _ _ _ Hn).
Qed.

(** X10: After a callback is unsubscribed, executing actions does not invoke it
    any more, while every other subscriber is still invoked once per
    action.  After [destroy] nobody is invoked. *)
Theorem unsubscribe_stops_notification (m : StateManager)
    (cb : StateChangeCallback) (acts : list Action) :
  NoDup (subscribers m) ->
  invocations cb
    (notifiedSince (unsubscribe m cb)
       (fold_left executeAction acts (unsubscribe m cb))) = 0%nat
  /\ (forall c, In c (subscribers m) -> c <> cb ->
        invocations c
          (notifiedSince (unsubscribe m cb)
             (fold_left executeAction acts (unsubscribe m cb)))
        = List.length acts)
  /\ (forall c,
        invocations c
          (notifiedSince (destroy m) (fold_left executeAction acts (destroy m)))
        = 0%nat).
Proof.
  intros Hnd. repeat split.
  - apply executeAll_notified_absent. cbn. intros H.
    apply filter_In in H. destruct H as [_ H]. now rewrite Nat.eqb_refl in H.
  - intros c Hin Hne.
    destruct (executeAll_notified c acts (unsubscribe m cb)) as [extra [Hn Hc]].
    + cbn. now apply NoDup_filter.
    + cbn. apply filter_In. split; [assumption|].
      now apply negb_true_iff, Nat.eqb_neq.
    + now rewrite (notifiedSince_app _ _ _ Hn).
  - intros c. apply executeAll_notified_absent. cbn. tauto.
Qed.

Lemma unsubscribe_stops_notification_witness :
  invocations 7%nat
    (notifiedSince (unsubscribe (subscribe freshManager 7%nat) 7%nat)
       (fold_left executeAction (map stamp twoToolChanges)
          (unsubscribe (subscribe freshManager 7%nat) 7%nat)))
  = 0%nat.
Proof.
  assert (Hnd : NoDup (subscribers (subscribe freshManager 7%nat))).
  { apply (setAdd_NoDup 7%nat []). constructor. }
  exact (proj1 (unsubscribe_stops_notification (subscribe freshManager 7%nat)
                  7%nat (map stamp twoToolChanges) Hnd)).
Defined.

(** ** Invariants of the manager *)

Lemma executeAction_atRest m a : atRest m -> atRest (executeAction m a).
Proof.
  intros [Hb [Hba [Hlen Hnd]]]. unfold atRest.
  rewrite executeAction_batchOperation, executeAction_future,
    executeAction_subscribers.
  repeat split; try assumption.
  - unfold executeAction. now destruct (reducer (state m) (idGen m) (state m) a).
  - pose proof (executeAction_history_bounded m a) as H. cbn in *. lia.
Qed.

Lemma executeAll_atRest (acts : list Action) : forall m,
  atRest m -> atRest (fold_left executeAction acts m).
Proof.
  induction acts as [|a acts IH]; intros m H; cbn [fold_left]; [assumption|].
  now apply IH, executeAction_atRest.
Qed.

Lemma undo_atRest m : atRest m -> atRest (undo m).
Proof.
  intros [Hb [Hba [Hlen Hnd]]].
  destruct (history m) as [|a0 h0] eqn:E.
  - rewrite (undo_empty m E). unfold atRest. rewrite E. now repeat split.
  - destruct (exists_last (l := a0 :: h0)) as [h [a Hh]]; [discriminate|].
    rewrite Hh in *. rewrite (undo_unfold m h a E). unfold atRest; cbn.
    repeat split; try assumption.
    rewrite length_app in *. cbn in *. lia.
Qed.

Lemma redo_atRest m : atRest m -> atRest (redo m).
Proof.
  intros [Hb [Hba [Hlen Hnd]]].
  destruct (future m) as [|a0 f0] eqn:E.
  - unfold redo. rewrite E. cbn. unfold atRest. rewrite E. now repeat split.
  - destruct (exists_last (l := a0 :: f0)) as [f [a Hf]]; [discriminate|].
    rewrite Hf in *. rewrite (redo_unfold m f a E).
    apply executeAction_atRest. unfold atRest; cbn.
    repeat split; try assumption.
    rewrite length_app in *. cbn in *. lia.
Qed.

(** X11: Between the calls of its interface the manager is at rest: starting
    from the constructor, after any sequence of [dispatch], [batch],
    [undo], [redo], [subscribe], unsubscribe and [destroy] calls no batch
    is open, the log and the redo buffer together hold at most 100 actions
    (so the log alone never exceeds 100 and [redo] never evicts an entry),
    and no callback is registered twice. *)
Theorem manager_stays_at_rest (initialState : option PartialAppState.t)
    (g : IdGen) (cs : list ManagerCall) :
  atRest (callAll (newStateManager initialState g) cs)
  /\ (List.length (history (callAll (newStateManager initialState g) cs))
      <= 100)%nat.
Proof.
  assert (H : forall m, atRest m -> atRest (callAll m cs)).
  { unfold callAll. induction cs as [|c cs IH]; intros m Hm; [assumption|].
    cbn [fold_left]. apply IH. destruct c as [now p|callback| | |cb|cb|]; cbn [call].
    - destruct Hm as [Hb Hrest].
      rewrite (dispatch_unbatched _ _ _ Hb).
      apply executeAction_atRest. now split.
    - destruct Hm as [Hb [Hba Hrest]].
      rewrite (batch_as_executeAll m callback Hb Hba).
      apply executeAll_atRest. now repeat split.
    - now apply undo_atRest.
    - now apply redo_atRest.
    - destruct Hm as [Hb [Hba [Hlen Hnd]]]. unfold atRest; cbn.
      repeat split; try assumption. now apply setAdd_NoDup.
    - destruct Hm as [Hb [Hba [Hlen Hnd]]]. unfold atRest; cbn.
      repeat split; try assumption. now apply NoDup_filter.
    - destruct Hm as [Hb [Hba [Hlen Hnd]]]. unfold atRest; cbn.
      repeat split; try assumption. constructor. }
  assert (H0 : atRest (newStateManager initialState g)).
  { unfold atRest; cbn. repeat split; try lia. constructor. }
  pose proof (H _ H0) as Hr. split; [assumption|].
  destruct Hr as [_ [_ [Hlen _]]]. unfold maxHistorySize in Hlen. lia.
Qed.

(** ** The selection list *)

Lemma reducer_selected_incl thisState g s a :
  incl (AppState.selectedBarIds (fst (reducer thisState g s a)))
       (AppState.selectedBarIds s).
Proof.
  unfold reducer.
  destruct (payload a) as [d|i|i c|i sp|srcs rb|i|tool|c]; cbn;
    try apply incl_refl; try apply incl_filter.
Qed.

Lemma replay_selected_incl thisState (acts : list Action) : forall g s,
  incl (AppState.selectedBarIds (fst (replay thisState g s acts)))
       (AppState.selectedBarIds s).
Proof.
  induction acts as [|a acts IH]; intros g s; cbn [replay]; [apply incl_refl|].
  pose proof (reducer_selected_incl thisState g s a) as H.
  destruct (reducer thisState g s a) as [s1 g1]. cbn in H.
  eapply incl_tran; [apply IH | exact H].
Qed.

Lemma executeAll_selected_incl (acts : list Action) : forall m,
  incl (AppState.selectedBarIds (state (fold_left executeAction acts m)))
       (AppState.selectedBarIds (state m)).
Proof.
  induction acts as [|a acts IH]; intros m; cbn [fold_left]; [apply incl_refl|].
  eapply incl_tran; [apply IH|].
  rewrite executeAction_state. apply reducer_selected_incl.
Qed.

Lemma call_selected_incl m c (ids : list string) :
  incl (AppState.selectedBarIds (state m)) ids ->
  incl (AppState.selectedBarIds (state (call m c))) ids.
Proof.
  intros H. destruct c as [now p|callback| | |cb|cb|]; cbn [call];
    try assumption.
  - unfold dispatch. destruct (batchOperation m); [assumption|].
    eapply incl_tran; [|exact H].
    rewrite executeAction_state. apply reducer_selected_incl.
  - rewrite batch_unfold. cbn [state].
    eapply incl_tran; [apply executeAll_selected_incl | exact H].
  - destruct (history m) as [|a0 h0] eqn:E.
    + now rewrite (undo_empty m E).
    + destruct (exists_last (l := a0 :: h0)) as [h [a Hh]]; [discriminate|].
      rewrite Hh in *. rewrite (undo_unfold m h a E). cbn [state updateState notifySubscribers].
      eapply incl_tran; [apply replay_selected_incl|]. intros j [].
  - unfold redo. destruct (rev (future m)); [assumption|].
    rewrite executeAction_state. cbn [state idGen].
    eapply incl_tran; [apply reducer_selected_incl | exact H].
Qed.

(** X12: No action ever adds an id to [selectedBarIds]: the reducer only filters
    the list.  Under any sequence of [dispatch], [batch], [undo], [redo],
    [subscribe], unsubscribe and [destroy] calls the list stays within the
    one the constructor was given, and on a manager created without initial
    state it stays empty, also after bars were marked as selected through
    MODIFY_BAR.  ([loadState], which replaces the state by a stored
    snapshot, is not among these calls.) *)
Theorem selected_ids_never_grow :
  (forall thisState g s a,
      incl (AppState.selectedBarIds (fst (reducer thisState g s a)))
           (AppState.selectedBarIds s))
  /\ (forall initialState g cs,
        incl (AppState.selectedBarIds
                (state (callAll (newStateManager initialState g) cs)))
             (AppState.selectedBarIds (createInitialState initialState)))
  /\ (forall g cs,
        AppState.selectedBarIds (state (callAll (newStateManager None g) cs))
        = []).
Proof.
  assert (H : forall cs m ids,
             incl (AppState.selectedBarIds (state m)) ids ->
             incl (AppState.selectedBarIds (state (callAll m cs))) ids).
  { unfold callAll. induction cs as [|c cs IH]; intros m ids Hm; [assumption|].
    cbn [fold_left]. now apply IH, call_selected_incl. }
  repeat split.
  - apply reducer_selected_incl.
  - intros initialState g cs. apply H, incl_refl.
  - intros g cs.
    pose proof (H cs (newStateManager None g) [] (incl_refl _)) as Hincl.
    destruct (AppState.selectedBarIds
                (state (callAll (newStateManager None g) cs))) as [|j l];
      [reflexivity|].
    destruct (Hincl j (or_introl eq_refl)).
Qed.

(** ** Defaults of new bars *)

(** X13: A dispatched ADD_BAR takes the height and the colour its payload leaves
    out from the settings of the current state: after UPDATE_SETTINGS has
    set the default colour and height, the next bar without colour and
    height gets exactly these. *)
Theorem settings_drive_add_bar_defaults (m : StateManager) (t1 t2 : Z)
    (c : string) (h : number) (barData : PartialBar.t) :
  batchOperation m = false ->
  PartialBar.color barData = None ->
  PartialBar.height barData = None ->
  let m2 :=
    dispatch
      (dispatch m t1
         (UPDATE_SETTINGS (PartialSettings.mk (Some c) (Some h) None None None)))
      t2 (ADD_BAR barData) in
  exists bar,
    AppState.bars (state m2) = AppState.bars (state m) ++ [bar]
    /\ FractionBarState.color bar = c
    /\ FractionBarState.height bar = h.
Proof.
  intros Hb Hc Hh m2. subst m2.
  assert (Hb1 : batchOperation
                  (dispatch m t1
                     (UPDATE_SETTINGS
                        (PartialSettings.mk (Some c) (Some h) None None None)))
                = false) by now rewrite dispatch_batchOperation.
  rewrite (dispatch_unbatched _ _ _ Hb1), executeAction_state.
  rewrite (dispatch_unbatched _ _ _ Hb), executeAction_state.
  cbn. eexists. split; [reflexivity|]. cbn. now rewrite Hc, Hh.
Qed.

Lemma settings_drive_add_bar_defaults_witness :
  exists bar,
    AppState.bars
      (state
         (dispatch
            (dispatch freshManager 1
               (UPDATE_SETTINGS
                  (PartialSettings.mk (Some "#FF0000"%string) (Some 40) None
                     None None)))
            2 (ADD_BAR PartialBar.empty)))
    = AppState.bars (state freshManager) ++ [bar]
    /\ FractionBarState.color bar = "#FF0000"%string
    /\ FractionBarState.height bar = 40.
Proof.
  apply (settings_drive_add_bar_defaults freshManager 1 2 "#FF0000" 40
           PartialBar.empty eq_refl eq_refl eq_refl).
Defined.

(** ** What the replay of [undo] does to bars *)

(** X14: [undo] creates the bars of the remaining log anew: a bar added without
    an id in its payload gets the next generated id, not the id it had.  On
    a fresh manager, after ADD_BAR and any second action that is not an
    ADD_BAR, undoing the second action leaves one bar whose id is the second
    result of [generateId], while the bar had the first one before. *)
Theorem undo_regenerates_ids (g : IdGen) (barData : PartialBar.t) (t1 t2 : Z)
    (p2 : Payload) :
  PartialBar.id barData = None ->
  isAddBar p2 = false ->
  let m1 := dispatch (newStateManager None g) t1 (ADD_BAR barData) in
  let m2 := dispatch m1 t2 p2 in
  barIds (state m1) = [supply g (calls g)]
  /\ barIds (state (undo m2)) = [supply g (S (calls g))].
Proof.
  intros Hid Hadd m1 m2. split.
  - subst m1. unfold barIds. cbn. now rewrite Hid.
  - assert (Hh : history m2 = [mkAction (ADD_BAR barData) t1] ++ [mkAction p2 t2]).
    { subst m2 m1. rewrite !dispatch_unbatched by reflexivity.
      now rewrite !executeAction_history. }
    assert (Hg : idGen m2 = mkIdGen (supply g) (S (calls g))).
    { subst m2 m1. destruct p2; try discriminate; reflexivity. }
    rewrite (undo_unfold m2 _ _ Hh). cbn [state updateState notifySubscribers].
    rewrite Hg. unfold barIds. cbn. now rewrite Hid.
Qed.

Lemma undo_regenerates_ids_witness :
  barIds
    (state
       (undo
          (dispatch (dispatch (newStateManager None letterIds) 1
                       (ADD_BAR PartialBar.empty))
             2 (CHANGE_TOOL "split"))))
  = ["b"%string].
Proof.
  exact (proj2 (undo_regenerates_ids letterIds PartialBar.empty 1 2
                  (CHANGE_TOOL "split") eq_refl eq_refl)).
Defined.

(** X15: The replay of [undo] reads the default colour from the state before the
    undo, not from the replayed state: on a fresh manager, a bar added
    without colour, then a change of the default colour, then a change of
    tool; undoing the last action gives the bar the new default colour,
    although it was created with the old one. *)
Theorem undo_recolours_bars (g : IdGen) (barData : PartialBar.t) (t1 t2 t3 : Z)
    (c tool : string) :
  PartialBar.color barData = None ->
  let m3 :=
    dispatchAll (newStateManager None g)
      [(t1, ADD_BAR barData); (t2, UPDATE_SETTINGS (colorSetting c));
       (t3, CHANGE_TOOL tool)] in
  map FractionBarState.color (AppState.bars (state m3)) = ["#FFFF66"%string]
  /\ map FractionBarState.color (AppState.bars (state (undo m3))) = [c].
Proof.
  intros Hc m3. split.
  - subst m3. cbn. now rewrite Hc.
  - assert (Hh : history m3
                 = [mkAction (ADD_BAR barData) t1;
                    mkAction (UPDATE_SETTINGS (colorSetting c)) t2]
                   ++ [mkAction (CHANGE_TOOL tool) t3]) by reflexivity.
    rewrite (undo_unfold m3 _ _ Hh). cbn. now rewrite Hc.
Qed.

Lemma undo_recolours_bars_witness :
  map FractionBarState.color
    (AppState.bars
       (state
          (undo
             (dispatchAll (newStateManager None letterIds)
                [(1%Z, ADD_BAR PartialBar.empty);
                 (2%Z, UPDATE_SETTINGS (colorSetting "#FF0000"));
                 (3%Z, CHANGE_TOOL "split")]))))
  = ["#FF0000"%string].
Proof.
  exact (proj2 (undo_recolours_bars letterIds PartialBar.empty 1 2 3
                  "#FF0000" "split" eq_refl)).
Defined.

(** * The application: hit test, split and join geometry *)

Lemma barContains_iff (bar : FractionBarState.t) (x y : number) :
  barContains bar x y = true
  <-> FractionBarState.x bar <= x
      /\ x <= FractionBarState.x bar + FractionBarState.width bar
      /\ FractionBarState.y bar <= y
      /\ y <= FractionBarState.y bar + FractionBarState.height bar.
Proof.
  unfold barContains. rewrite !andb_true_iff, !Qle_bool_iff. tauto.
Qed.

(** X16: [findBarAt] returns the first bar, in the order of the collection, whose
    rectangle (borders included) holds the point, and nothing exactly when
    no bar holds it: of overlapping bars the earliest one is hit. *)
Theorem findBarAt_first_hit (m : StateManager) (x y : number) :
  match findBarAt m x y with
  | Some bar =>
      exists before after,
        AppState.bars (state m) = before ++ bar :: after
        /\ (forall b, In b before -> barContains b x y = false)
        /\ FractionBarState.x bar <= x
        /\ x <= FractionBarState.x bar + FractionBarState.width bar
        /\ FractionBarState.y bar <= y
        /\ y <= FractionBarState.y bar + FractionBarState.height bar
  | None => forall b, In b (AppState.bars (state m)) -> barContains b x y = false
  end.
Proof.
  unfold findBarAt, getState.
  induction (AppState.bars (state m)) as [|b l IH]; cbn; [intros b []|].
  destruct (barContains b x y) eqn:E.
  - exists [], l. split; [reflexivity|]. split; [intros b' []|].
    now apply barContains_iff.
  - destruct (find (fun bar => barContains bar x y) l) as [bar|].
    + destruct IH as [before [after [Hl [Hbefore Hin]]]].
      exists (b :: before), after. split; [now rewrite Hl|].
      split; [|assumption].
      intros b' [<- | Hb']; [assumption | now apply Hbefore].
    + intros b' [<- | Hb']; [assumption | now apply IH].
Qed.

(** X17: For a point inside the bar, as [handleBarSplit] passes it,
    [calculateSplits] returns two parts of the bar's colour that tile the
    bar: a vertical split gives two parts of the bar's full height, the
    second starting where the first ends, whose widths are not negative and
    add up to the bar's width; a horizontal split the same with heights. *)
Theorem calculateSplits_tiles_bar (bar : FractionBarState.t) (x y : number)
    (isVertical : bool) :
  barContains bar x y = true ->
  exists p1 p2,
    calculateSplits bar x y isVertical = [p1; p2]
    /\ SplitPart.color p1 = FractionBarState.color bar
    /\ SplitPart.color p2 = FractionBarState.color bar
    /\ SplitPart.x p1 = 0 /\ SplitPart.y p1 = 0
    /\ 0 <= SplitPart.width p1 /\ 0 <= SplitPart.width p2
    /\ 0 <= SplitPart.height p1 /\ 0 <= SplitPart.height p2
    /\ (if isVertical
        then SplitPart.x p2 = SplitPart.width p1
             /\ SplitPart.y p2 = 0
             /\ SplitPart.width p1 + SplitPart.width p2
                == FractionBarState.width bar
             /\ SplitPart.height p1 = FractionBarState.height bar
             /\ SplitPart.height p2 = FractionBarState.height bar
        else SplitPart.y p2 = SplitPart.height p1
             /\ SplitPart.x p2 = 0
             /\ SplitPart.height p1 + SplitPart.height p2
                == FractionBarState.height bar
             /\ SplitPart.width p1 = FractionBarState.width bar
             /\ SplitPart.width p2 = FractionBarState.width bar).
Proof.
  intros H. apply barContains_iff in H. destruct H as [Hx1 [Hx2 [Hy1 Hy2]]].
  assert (Hw : 0 <= FractionBarState.width bar).
  { apply (Qplus_le_r _ _ (FractionBarState.x bar)). rewrite Qplus_0_r.
    now apply Qle_trans with x. }
  assert (Hh : 0 <= FractionBarState.height bar).
  { apply (Qplus_le_r _ _ (FractionBarState.y bar)). rewrite Qplus_0_r.
    now apply Qle_trans with y. }
  assert (Hrx : 0 <= x - FractionBarState.x bar).
  { now apply (Qle_minus_iff (FractionBarState.x bar) x). }
  assert (Hry : 0 <= y - FractionBarState.y bar).
  { now apply (Qle_minus_iff (FractionBarState.y bar) y). }
  assert (Hrx' : 0 <= FractionBarState.width bar - (x - FractionBarState.x bar)).
  { apply (Qle_minus_iff x) in Hx2.
    setoid_replace (FractionBarState.width bar - (x - FractionBarState.x bar))
      with (FractionBarState.x bar + FractionBarState.width bar + - x) by ring.
    assumption. }
  assert (Hry' : 0 <= FractionBarState.height bar - (y - FractionBarState.y bar)).
  { apply (Qle_minus_iff y) in Hy2.
    setoid_replace (FractionBarState.height bar - (y - FractionBarState.y bar))
      with (FractionBarState.y bar + FractionBarState.height bar + - y) by ring.
    assumption. }
  unfold calculateSplits. destruct isVertical; do 2 eexists;
    (split; [reflexivity|]); cbn; repeat split; try assumption; ring.
Qed.

Lemma calculateSplits_tiles_bar_witness :
  exists p1 p2,
    calculateSplits
      (FractionBarState.mk "a" 10 20 100 60 "#FFFF66" false false None None [])
      40 50 true
    = [p1; p2]
    /\ SplitPart.width p1 + SplitPart.width p2 == 100.
Proof.
  destruct (calculateSplits_tiles_bar
              (FractionBarState.mk "a" 10 20 100 60 "#FFFF66" false false None
                 None [])
              40 50 true eq_refl)
    as [p1 [p2 [H [_ [_ [_ [_ [_ [_ [_ [_ [_ [_ [Hsum _]]]]]]]]]]]]]].
  exists p1, p2. split; [exact H | exact Hsum].
Defined.

(** X18: [canBarsJoin] does not depend on the order of the two bars, and it holds
    exactly when the bars agree in width or in height and some right or
    bottom edge of one lies less than 5 away from the left or top edge of
    the other.  The test on one axis does not look at the other axis. *)
Theorem canBarsJoin_symmetric (bar1 bar2 : FractionBarState.t) :
  canBarsJoin bar1 bar2 = canBarsJoin bar2 bar1
  /\ (canBarsJoin bar1 bar2 = true
      <-> (FractionBarState.width bar1 == FractionBarState.width bar2
           \/ FractionBarState.height bar1 == FractionBarState.height bar2)
          /\ (Qabs (FractionBarState.x bar1 + FractionBarState.width bar1
                    - FractionBarState.x bar2) < 5
              \/ Qabs (FractionBarState.x bar2 + FractionBarState.width bar2
                       - FractionBarState.x bar1) < 5
              \/ Qabs (FractionBarState.y bar1 + FractionBarState.height bar1
                       - FractionBarState.y bar2) < 5
              \/ Qabs (FractionBarState.y bar2 + FractionBarState.height bar2
                       - FractionBarState.y bar1) < 5)).
Proof.
  split.
  - unfold canBarsJoin.
    rewrite (Qeq_bool_comm (FractionBarState.width bar1)),
      (Qeq_bool_comm (FractionBarState.height bar1)).
    f_equal.
    repeat match goal with |- context [Qlt_bool ?a 5] =>
      let b := fresh "b" in generalize (Qlt_bool a 5); intro b end.
    repeat match goal with b : bool |- _ => destruct b end; reflexivity.
  - unfold canBarsJoin.
    rewrite andb_true_iff, !orb_true_iff, !Qlt_bool_iff, !Qeq_bool_iff. tauto.
Qed.

(** X19: [createJoinedBar] returns the bounding box of the two bars: its left
    and top edges are the smaller of the two left and top edges, its right
    and bottom edges the larger of the two right and bottom edges, so that
    it holds both rectangles and no smaller rectangle does.  The result
    takes the colour of the first bar, is selected, is no unit bar and has
    no splits, label or fraction. *)
Theorem createJoinedBar_bounding_box (newId : string)
    (bar1 bar2 : FractionBarState.t) :
  let j := createJoinedBar newId bar1 bar2 in
  (FractionBarState.x j = Qmin (FractionBarState.x bar1) (FractionBarState.x bar2)
   /\ FractionBarState.y j
      = Qmin (FractionBarState.y bar1) (FractionBarState.y bar2)
   /\ FractionBarState.x j + FractionBarState.width j
      == Qmax (FractionBarState.x bar1 + FractionBarState.width bar1)
              (FractionBarState.x bar2 + FractionBarState.width bar2)
   /\ FractionBarState.y j + FractionBarState.height j
      == Qmax (FractionBarState.y bar1 + FractionBarState.height bar1)
              (FractionBarState.y bar2 + FractionBarState.height bar2))
  /\ ((FractionBarState.x j == FractionBarState.x bar1
       \/ FractionBarState.x j == FractionBarState.x bar2)
      /\ (FractionBarState.y j == FractionBarState.y bar1
          \/ FractionBarState.y j == FractionBarState.y bar2)
      /\ (FractionBarState.x j + FractionBarState.width j
          == FractionBarState.x bar1 + FractionBarState.width bar1
          \/ FractionBarState.x j + FractionBarState.width j
             == FractionBarState.x bar2 + FractionBarState.width bar2)
      /\ (FractionBarState.y j + FractionBarState.height j
          == FractionBarState.y bar1 + FractionBarState.height bar1
          \/ FractionBarState.y j + FractionBarState.height j
             == FractionBarState.y bar2 + FractionBarState.height bar2))
  /\ FractionBarState.x j <= FractionBarState.x bar1
  /\ FractionBarState.x j <= FractionBarState.x bar2
  /\ FractionBarState.y j <= FractionBarState.y bar1
  /\ FractionBarState.y j <= FractionBarState.y bar2
  /\ FractionBarState.x bar1 + FractionBarState.width bar1
     <= FractionBarState.x j + FractionBarState.width j
  /\ FractionBarState.x bar2 + FractionBarState.width bar2
     <= FractionBarState.x j + FractionBarState.width j
  /\ FractionBarState.y bar1 + FractionBarState.height bar1
     <= FractionBarState.y j + FractionBarState.height j
  /\ FractionBarState.y bar2 + FractionBarState.height bar2
     <= FractionBarState.y j + FractionBarState.height j
  /\ FractionBarState.id j = newId
  /\ FractionBarState.color j = FractionBarState.color bar1
  /\ FractionBarState.isSelected j = true
  /\ FractionBarState.isUnitBar j = false
  /\ FractionBarState.splits j = []
  /\ FractionBarState.label j = None
  /\ FractionBarState.fraction j = None.
Proof.
  cbn.
  assert (E : forall a b : Q, a + (b - a) == b) by (intros; ring).
  assert (Hmin : forall a b : Q, Qmin a b == a \/ Qmin a b == b).
  { intros a b. destruct (Q.min_spec_le a b) as [[_ H] | [_ H]]; tauto. }
  assert (Hmax : forall a b : Q, Qmax a b == a \/ Qmax a b == b).
  { intros a b. destruct (Q.max_spec_le a b) as [[_ H] | [_ H]]; tauto. }
  split; [|split].
  - repeat split; rewrite ?E; reflexivity.
  - repeat split; rewrite ?E; first [apply Hmin | apply Hmax].
  - repeat split; rewrite ?E;
      first [ apply Q.le_min_l | apply Q.le_min_r
            | apply Q.le_max_l | apply Q.le_max_r ].
Qed.

(** * The application: actions built from gestures and keys *)

(** ** Bars with pairwise different ids *)

Lemma same_id_same_bar (l : list FractionBarState.t) (b b' : FractionBarState.t) :
  NoDup (map FractionBarState.id l) ->
  In b l -> In b' l -> FractionBarState.id b = FractionBarState.id b' -> b = b'.
Proof.
  induction l as [|a l IH]; intros Hnd Hb Hb' Hid; [destruct Hb|].
  cbn in Hnd. inversion Hnd as [|? ? Hnotin Hnd']; subst.
  destruct Hb as [-> | Hb], Hb' as [-> | Hb'].
  - reflexivity.
  - exfalso. apply Hnotin. rewrite Hid. now apply in_map.
  - exfalso. apply Hnotin. rewrite <- Hid. now apply in_map.
  - now apply IH.
Qed.

Lemma selected_bars_distinct_ids (bars : list FractionBarState.t) :
  NoDup (map FractionBarState.id bars) ->
  NoDup (map FractionBarState.id (filter FractionBarState.isSelected bars)).
Proof.
  intros Hnd. induction bars as [|bar bars IH]; cbn in *; [constructor|].
  inversion Hnd as [|? ? Hfresh Hrest]; subst.
  destruct (FractionBarState.isSelected bar); cbn; [|now apply IH].
  constructor; [|now apply IH].
  intros Hin. apply Hfresh. apply in_map_iff in Hin.
  destruct Hin as [other [Hid Hother]]. apply filter_In in Hother.
  apply in_map_iff. exists other. tauto.
Qed.

Lemma idCount_absent i l :
  ~ In i (map FractionBarState.id l) -> idCount i l = 0%nat.
Proof.
  unfold idCount. induction l as [|a l IH]; cbn; intros H; [reflexivity|].
  destruct (String.eqb (FractionBarState.id a) i) eqn:E.
  - apply String.eqb_eq in E. exfalso. apply H. now left.
  - apply IH. intros Hin. apply H. now right.
Qed.

Lemma idCount_unique (l : list FractionBarState.t) (b : FractionBarState.t) :
  NoDup (map FractionBarState.id l) -> In b l ->
  idCount (FractionBarState.id b) l = 1%nat.
Proof.
  induction l as [|a l IH]; intros Hnd Hb; [destruct Hb|].
  cbn in Hnd. inversion Hnd as [|? ? Hnotin Hnd']; subst.
  unfold idCount in *. cbn.
  destruct Hb as [-> | Hb].
  - rewrite String.eqb_refl. cbn. f_equal. now apply idCount_absent.
  - destruct (String.eqb (FractionBarState.id a) (FractionBarState.id b)) eqn:E.
    + apply String.eqb_eq in E. exfalso. apply Hnotin. rewrite E. now apply in_map.
    + now apply IH.
Qed.

Lemma join_filter_length (i1 i2 : string) (l : list FractionBarState.t) :
  i1 <> i2 ->
  (List.length
     (filter (fun bar => negb (includes [i1; i2] (FractionBarState.id bar))) l)
   + idCount i1 l + idCount i2 l
   = List.length l)%nat.
Proof.
  intros Hne. unfold idCount, includes.
  induction l as [|a l IH]; cbn in *; [reflexivity|].
  destruct (String.eqb (FractionBarState.id a) i1) eqn:E1,
           (String.eqb (FractionBarState.id a) i2) eqn:E2; cbn; try lia.
  apply String.eqb_eq in E1, E2. congruence.
Qed.

(** ** Join *)

(** X20: [handleBarJoin] does nothing when the bars cannot be joined.  When they
    can, the bars with one of the two ids are taken out and the joined bar
    becomes the last bar; for two different bars of a collection with
    pairwise different ids the collection gets shorter by one. *)
Theorem handleBarJoin_effect (m : StateManager) (now : Z) (newId : string)
    (bar1 bar2 : FractionBarState.t) :
  batchOperation m = false ->
  let m' := handleBarJoin m now newId bar1 bar2 in
  (canBarsJoin bar1 bar2 = false -> m' = m)
  /\ (canBarsJoin bar1 bar2 = true ->
      AppState.bars (state m')
      = filter
          (fun bar =>
             negb (includes [FractionBarState.id bar1; FractionBarState.id bar2]
                     (FractionBarState.id bar)))
          (AppState.bars (state m))
        ++ [createJoinedBar newId bar1 bar2]
      /\ (NoDup (barIds (state m)) ->
          In bar1 (AppState.bars (state m)) ->
          In bar2 (AppState.bars (state m)) ->
          FractionBarState.id bar1 <> FractionBarState.id bar2 ->
          (List.length (AppState.bars (state m')) + 1
           = List.length (AppState.bars (state m)))%nat)).
Proof.
  intros Hb m'. subst m'. unfold handleBarJoin. split.
  - intros H. now rewrite H.
  - intros H. rewrite H, (dispatch_unbatched _ _ _ Hb), executeAction_state.
    cbn. split; [reflexivity|].
    intros Hnd H1 H2 Hne.
    pose proof (join_filter_length _ _ (AppState.bars (state m)) Hne) as Hlen.
    rewrite (idCount_unique _ _ Hnd H1), (idCount_unique _ _ Hnd H2) in Hlen.
    rewrite length_app. cbn. unfold includes in *. cbn in *. lia.
Qed.

Lemma handleBarJoin_effect_witness :
  canBarsJoin joinBarA joinBarB = true
  /\ AppState.bars (state (handleBarJoin twoBarsManager 3 "j" joinBarA joinBarB))
     = [createJoinedBar "j" joinBarA joinBarB]
  /\ (List.length
        (AppState.bars
           (state (handleBarJoin twoBarsManager 3 "j" joinBarA joinBarB))) + 1
      = List.length (AppState.bars (state twoBarsManager)))%nat.
Proof.
  destruct (proj2 (handleBarJoin_effect twoBarsManager 3 "j" joinBarA joinBarB
                     eq_refl) eq_refl) as [Hbars Hlen].
  split; [reflexivity|]. split; [exact Hbars|].
  apply Hlen.
  - repeat constructor; cbn; intuition discriminate.
  - now left.
  - right. now left.
  - discriminate.
Defined.

(** ** Selection by pointer and by key *)

Lemma modify_selected_twice (l : list FractionBarState.t)
    (bar : FractionBarState.t) :
  NoDup (map FractionBarState.id l) -> In bar l ->
  map (fun b =>
         if String.eqb (FractionBarState.id b) (FractionBarState.id bar)
         then spreadBar b (selectedChange (negb (negb (FractionBarState.isSelected bar))))
         else b)
      (map (fun b =>
              if String.eqb (FractionBarState.id b) (FractionBarState.id bar)
              then spreadBar b (selectedChange (negb (FractionBarState.isSelected bar)))
              else b)
           l)
  = l.
Proof.
  intros Hnd Hin. rewrite map_map. apply map_unchanged. intros b Hb.
  destruct (String.eqb (FractionBarState.id b) (FractionBarState.id bar)) eqn:E.
  - apply String.eqb_eq in E.
    assert (b = bar) by now apply (same_id_same_bar l).
    subst b. cbn. rewrite String.eqb_refl, negb_involutive. now destruct bar.
  - now rewrite E.
Qed.

Lemma find_map_invariant {A} (p : A -> bool) (f : A -> A) (l : list A) :
  (forall a, p (f a) = p a) -> find p (map f l) = option_map f (find p l).
Proof.
  intros H. induction l as [|a l IH]; cbn; [reflexivity|].
  rewrite H. now destruct (p a).
Qed.

Lemma barContains_spreadBar_selected bar v x y :
  barContains (spreadBar bar (selectedChange v)) x y = barContains bar x y.
Proof. reflexivity. Qed.

(** X21: [handleBarSelect] leaves the manager alone when no bar is at the point;
    otherwise it flips [isSelected] of the bar that is hit.  In a
    collection with pairwise different ids a second tap at the same point
    hits the same bar and restores the state. *)
Theorem handleBarSelect_twice_restores (m : StateManager) (t1 t2 : Z)
    (x y : number) :
  batchOperation m = false ->
  NoDup (barIds (state m)) ->
  (findBarAt m x y = None -> handleBarSelect m t1 x y = m)
  /\ (forall bar, findBarAt m x y = Some bar ->
        findBarAt (handleBarSelect m t1 x y) x y
        = Some (spreadBar bar
                  (selectedChange (negb (FractionBarState.isSelected bar)))))
  /\ state (handleBarSelect (handleBarSelect m t1 x y) t2 x y) = state m.
Proof.
  intros Hb Hnd.
  assert (Hfind : forall bar, findBarAt m x y = Some bar ->
            findBarAt (handleBarSelect m t1 x y) x y
            = Some (spreadBar bar
                      (selectedChange (negb (FractionBarState.isSelected bar))))).
  { intros bar Hf. unfold handleBarSelect. rewrite Hf.
    unfold findBarAt, getState in *.
    rewrite (dispatch_unbatched _ _ _ Hb), executeAction_state. cbn.
    rewrite find_map_invariant.
    - rewrite Hf. cbn.
      apply find_some in Hf. destruct Hf as [_ Hc].
      now rewrite String.eqb_refl.
    - intros a. now destruct (String.eqb (FractionBarState.id a)
                                 (FractionBarState.id bar)). }
  split; [|split].
  - intros Hf. unfold handleBarSelect. now rewrite Hf.
  - exact Hfind.
  - destruct (findBarAt m x y) as [bar|] eqn:Hf.
    + pose proof (Hfind bar eq_refl) as Hf2.
      unfold handleBarSelect at 1. rewrite Hf2. cbn [FractionBarState.id spreadBar
        selectedChange orElse PartialBar.id FractionBarState.isSelected
        PartialBar.isSelected].
      assert (Hb1 : batchOperation (handleBarSelect m t1 x y) = false).
      { unfold handleBarSelect. rewrite Hf. now rewrite dispatch_batchOperation. }
      rewrite (dispatch_unbatched _ _ _ Hb1), executeAction_state.
      unfold handleBarSelect. rewrite Hf.
      rewrite (dispatch_unbatched _ _ _ Hb), executeAction_state. cbn.
      unfold findBarAt, getState in Hf. apply find_some in Hf. destruct Hf as [Hin _].
      rewrite (modify_selected_twice _ bar Hnd Hin). now destruct (state m).
    + unfold handleBarSelect. rewrite Hf. unfold handleBarSelect. now rewrite Hf.
Qed.

Lemma handleBarSelect_twice_restores_witness :
  state
    (handleBarSelect
       (handleBarSelect (dispatch freshManager 1 (ADD_BAR (idData "x"))) 2 50 30)
       3 50 30)
  = state (dispatch freshManager 1 (ADD_BAR (idData "x"))).
Proof.
  assert (Hnd : NoDup (barIds (state (dispatch freshManager 1 (ADD_BAR (idData "x")))))).
  { repeat constructor. intros []. }
  apply (handleBarSelect_twice_restores
           (dispatch freshManager 1 (ADD_BAR (idData "x"))) 2 3 50 30
           eq_refl Hnd).
Defined.

(** ** Drag *)

(** The bars after the MODIFY_BAR actions of a drag, one per target. *)
Lemma drag_actions_state (deltaX deltaY : number) (clock : nat -> Z)
    (targets : list FractionBarState.t) : forall (k : nat) (m : StateManager),
  state
    (fold_left executeAction
       (map stamp
          (map (fun kb =>
                  (clock (fst kb),
                   MODIFY_BAR (FractionBarState.id (snd kb))
                     (positionChange (FractionBarState.x (snd kb) + deltaX)
                                     (FractionBarState.y (snd kb) + deltaY))))
               (combine (seq k (List.length targets)) targets)))
       m)
  = withBars (state m)
      (fold_left
         (fun bs t =>
            map (fun b =>
                   if String.eqb (FractionBarState.id b) (FractionBarState.id t)
                   then spreadBar b
                          (positionChange (FractionBarState.x t + deltaX)
                                          (FractionBarState.y t + deltaY))
                   else b)
                bs)
         targets (AppState.bars (state m))).
Proof.
  induction targets as [|t targets IH]; intros k m; cbn [List.length seq combine map fold_left].
  - now destruct (state m).
  - rewrite IH, executeAction_state. reflexivity.
Qed.

Lemma drag_fold_as_map (deltaX deltaY : number)
    (targets : list FractionBarState.t) :
  NoDup (map FractionBarState.id targets) ->
  forall bs,
    fold_left
      (fun bs t =>
         map (fun b =>
                if String.eqb (FractionBarState.id b) (FractionBarState.id t)
                then spreadBar b
                       (positionChange (FractionBarState.x t + deltaX)
                                       (FractionBarState.y t + deltaY))
                else b)
             bs)
      targets bs
    = map (fun b =>
             match find (fun t => String.eqb (FractionBarState.id t)
                                    (FractionBarState.id b)) targets with
             | Some t =>
                 spreadBar b
                   (positionChange (FractionBarState.x t + deltaX)
                                   (FractionBarState.y t + deltaY))
             | None => b
             end)
          bs.
Proof.
  induction targets as [|t targets IH]; intros Hnd bs; cbn [fold_left find].
  - symmetry. now apply map_unchanged.
  - cbn in Hnd. inversion Hnd as [|? ? Hnotin Hnd']; subst.
    rewrite (IH Hnd'), map_map. apply map_ext. intros b.
    rewrite (String.eqb_sym (FractionBarState.id t) (FractionBarState.id b)).
    destruct (String.eqb (FractionBarState.id b) (FractionBarState.id t)) eqn:E.
    + apply String.eqb_eq in E.
      replace (find _ targets) with (@None FractionBarState.t); [reflexivity|].
      symmetry.
      destruct (find (fun t0 => String.eqb (FractionBarState.id t0)
                                  (FractionBarState.id
                                     (spreadBar b
                                        (positionChange
                                           (FractionBarState.x t + deltaX)
                                           (FractionBarState.y t + deltaY)))))
                  targets) as [t0|] eqn:F; [|reflexivity].
      apply find_some in F. destruct F as [Hin Heq]. cbn in Heq.
      apply String.eqb_eq in Heq. exfalso. apply Hnotin.
      rewrite <- E, <- Heq. now apply in_map.
    + reflexivity.
Qed.

Lemma find_selected_by_id (l : list FractionBarState.t) (b : FractionBarState.t) :
  NoDup (map FractionBarState.id l) -> In b l ->
  find (fun t => String.eqb (FractionBarState.id t) (FractionBarState.id b))
       (filter FractionBarState.isSelected l)
  = if FractionBarState.isSelected b then Some b else None.
Proof.
  intros Hnd Hin.
  destruct (find _ (filter FractionBarState.isSelected l)) as [t|] eqn:F.
  - apply find_some in F. destruct F as [Ht Heq].
    apply filter_In in Ht. destruct Ht as [Ht Hsel].
    apply String.eqb_eq in Heq.
    assert (t = b) by now apply (same_id_same_bar l). subst t. now rewrite Hsel.
  - destruct (FractionBarState.isSelected b) eqn:Hsel; [|reflexivity].
    assert (Hb : In b (filter FractionBarState.isSelected l))
      by (apply filter_In; now split).
    pose proof (find_none _ _ F b Hb) as Hc. cbn in Hc.
    now rewrite String.eqb_refl in Hc.
Qed.

(** X22: In a collection with pairwise different ids, [handleBarDrag] moves every
    selected bar by [(deltaX, deltaY)] from its position before the drag and
    leaves the other bars, their order and the rest of the state unchanged;
    each moved bar is one entry of the history log. *)
Theorem handleBarDrag_moves_selected (m : StateManager) (clock : nat -> Z)
    (deltaX deltaY : number) :
  NoDup (barIds (state m)) ->
  state (handleBarDrag m clock deltaX deltaY)
  = withBars (state m)
      (map (fun b => if FractionBarState.isSelected b
                     then moveBar deltaX deltaY b else b)
           (AppState.bars (state m)))
  /\ ((List.length (history m) <= maxHistorySize)%nat ->
      history (handleBarDrag m clock deltaX deltaY)
      = lastN maxHistorySize
          (history m
           ++ map stamp (dragDispatches clock deltaX deltaY (getSelectedBars m)))).
Proof.
  intros Hnd. unfold handleBarDrag. rewrite batch_unfold. cbn zeta.
  cbn [state history]. split.
  - unfold dragDispatches. rewrite drag_actions_state. cbn [state].
    f_equal. unfold getSelectedBars, getState.
    rewrite drag_fold_as_map by now apply selected_bars_distinct_ids.
    apply map_ext_in. intros b Hb.
    rewrite (find_selected_by_id _ b Hnd Hb).
    now destruct (FractionBarState.isSelected b).
  - intros Hlen. now rewrite executeAll_history.
Qed.

Lemma handleBarDrag_moves_selected_witness :
  state
    (handleBarDrag
       (dispatch freshManager 1
          (ADD_BAR
             (PartialBar.mk (Some "x"%string) None None None None None
                (Some true) None None None None)))
       (fun k => Z.of_nat k) 5 7)
  = withBars
      (state
         (dispatch freshManager 1
            (ADD_BAR
               (PartialBar.mk (Some "x"%string) None None None None None
                  (Some true) None None None None))))
      (map (fun b => if FractionBarState.isSelected b then moveBar 5 7 b else b)
         (AppState.bars
            (state
               (dispatch freshManager 1
                  (ADD_BAR
                     (PartialBar.mk (Some "x"%string) None None None None None
                        (Some true) None None None None)))))).
Proof.
  apply handleBarDrag_moves_selected. repeat constructor. intros [].
Defined.

(** * Keyboard navigation *)

Lemma barAt_in_range (bars : list FractionBarState.t) (i : Z) :
  (0 <= i < Z.of_nat (List.length bars))%Z ->
  exists bar, KeyboardNavigationManager.barAt bars i = Some bar
              /\ nth_error bars (Z.to_nat i) = Some bar.
Proof.
  intros H. unfold KeyboardNavigationManager.barAt.
  destruct (Z.ltb_spec i 0) as [Hlt | _]; [lia|].
  destruct (nth_error bars (Z.to_nat i)) as [bar|] eqn:E; [now exists bar|].
  apply nth_error_None in E. lia.
Qed.

Lemma barAt_out_of_range (bars : list FractionBarState.t) (i : Z) :
  (i < 0 \/ Z.of_nat (List.length bars) <= i)%Z ->
  KeyboardNavigationManager.barAt bars i = None.
Proof.
  intros H. unfold KeyboardNavigationManager.barAt.
  destruct (Z.ltb_spec i 0) as [Hlt | Hge]; [reflexivity|].
  apply nth_error_None. lia.
Qed.

(** X23: With at least one bar and a focus index between -1 and the number of
    bars, [moveFocus] in any direction ends on an index inside the
    collection and focuses the bar at that index.  'next' moves one bar on
    and stops at the last bar, 'previous' moves one bar back and stops at
    the first, 'first' and 'last' go to the first and the last bar. *)
Theorem moveFocus_stays_in_range (m : StateManager) (focusedBarIndex : Z)
    (direction : KeyboardNavigationManager.Direction) :
  AppState.bars (state m) <> [] ->
  (-1 <= focusedBarIndex <= Z.of_nat (List.length (AppState.bars (state m))))%Z ->
  let r := KeyboardNavigationManager.moveFocus m focusedBarIndex direction in
  let n := Z.of_nat (List.length (AppState.bars (state m))) in
  (0 <= fst r < n)%Z
  /\ (exists bar,
        snd r = KeyboardNavigationManager.Focus bar
        /\ nth_error (AppState.bars (state m)) (Z.to_nat (fst r)) = Some bar)
  /\ match direction with
     | KeyboardNavigationManager.next =>
         ((focusedBarIndex + 1 < n)%Z -> fst r = (focusedBarIndex + 1)%Z)
         /\ ((n <= focusedBarIndex + 1)%Z -> fst r = (n - 1)%Z)
     | KeyboardNavigationManager.previous =>
         ((1 <= focusedBarIndex)%Z -> fst r = (focusedBarIndex - 1)%Z)
         /\ ((focusedBarIndex <= 0)%Z -> fst r = 0%Z)
     | KeyboardNavigationManager.first => fst r = 0%Z
     | KeyboardNavigationManager.last => fst r = (n - 1)%Z
     end.
Proof.
  intros Hne Hrange. unfold KeyboardNavigationManager.moveFocus, getState.
  set (bars := AppState.bars (state m)) in *.
  assert (Hlen : (0 < Z.of_nat (List.length bars))%Z).
  { destruct bars; [now elim Hne | cbn; lia]. }
  destruct (Z.eqb_spec (Z.of_nat (List.length bars)) 0) as [E | _]; [lia|].
  cbn zeta. cbn [fst snd].
  set (i := match direction with
            | KeyboardNavigationManager.next =>
                Z.min (focusedBarIndex + 1) (Z.of_nat (List.length bars) - 1)
            | KeyboardNavigationManager.previous => Z.max (focusedBarIndex - 1) 0
            | KeyboardNavigationManager.first => 0%Z
            | KeyboardNavigationManager.last => (Z.of_nat (List.length bars) - 1)%Z
            end).
  assert (Hi : (0 <= i < Z.of_nat (List.length bars))%Z).
  { subst i. destruct direction; lia. }
  split; [exact Hi|]. split.
  - destruct (barAt_in_range bars i Hi) as [bar [Hb Hn]].
    exists bar. now rewrite Hb.
  - subst i. destruct direction; try split; lia.
Qed.

Lemma moveFocus_stays_in_range_witness :
  fst (KeyboardNavigationManager.moveFocus twoBarsManager 0
         KeyboardNavigationManager.next) = 1%Z
  /\ fst (KeyboardNavigationManager.moveFocus twoBarsManager 1
            KeyboardNavigationManager.next) = 1%Z
  /\ fst (KeyboardNavigationManager.moveFocus twoBarsManager 0
            KeyboardNavigationManager.previous) = 0%Z.
Proof.
  assert (Hne : AppState.bars (state twoBarsManager) <> []) by discriminate.
  assert (H0 : (-1 <= 0 <= Z.of_nat (List.length (AppState.bars (state twoBarsManager))))%Z)
    by (cbn; lia).
  assert (H1 : (-1 <= 1 <= Z.of_nat (List.length (AppState.bars (state twoBarsManager))))%Z)
    by (cbn; lia).
  split; [|split].
  - apply (proj1 (proj2 (proj2 (moveFocus_stays_in_range twoBarsManager 0
                                  KeyboardNavigationManager.next Hne H0)))).
    cbn. lia.
  - apply (proj2 (proj2 (proj2 (moveFocus_stays_in_range twoBarsManager 1
                                  KeyboardNavigationManager.next Hne H1)))).
    cbn. lia.
  - apply (proj2 (proj2 (proj2 (moveFocus_stays_in_range twoBarsManager 0
                                  KeyboardNavigationManager.previous Hne H0)))).
    cbn. lia.
Defined.

(** X24: A focus index that went stale fails: when bars were removed and the
    index is above the number of bars left, 'previous' moves to an index
    that is still outside the collection and [focusBar] is called with
    [undefined], a [TypeError].  With no bars at all [moveFocus] returns at
    once and keeps the index. *)
Theorem moveFocus_stale_index_fails (m : StateManager) (focusedBarIndex : Z) :
  (AppState.bars (state m) <> [] ->
   (Z.of_nat (List.length (AppState.bars (state m))) < focusedBarIndex)%Z ->
   KeyboardNavigationManager.moveFocus m focusedBarIndex
     KeyboardNavigationManager.previous
   = ((focusedBarIndex - 1)%Z, KeyboardNavigationManager.TypeError))
  /\ (AppState.bars (state m) = [] ->
      forall direction,
        KeyboardNavigationManager.moveFocus m focusedBarIndex direction
        = (focusedBarIndex, KeyboardNavigationManager.NoBars)).
Proof.
  unfold KeyboardNavigationManager.moveFocus, getState. split.
  - intros Hne Hstale.
    destruct (Z.eqb_spec (Z.of_nat (List.length (AppState.bars (state m)))) 0)
      as [E | _].
    + destruct (AppState.bars (state m)); [now elim Hne | discriminate].
    + cbn zeta. replace (Z.max (focusedBarIndex - 1) 0) with (focusedBarIndex - 1)%Z by lia.
      rewrite barAt_out_of_range by lia. reflexivity.
  - intros E direction. now rewrite E.
Qed.

Lemma moveFocus_stale_index_fails_witness :
  KeyboardNavigationManager.moveFocus
    (dispatch freshManager 1 (ADD_BAR (idData "x"))) 4
    KeyboardNavigationManager.previous
  = (3%Z, KeyboardNavigationManager.TypeError).
Proof.
  apply (proj1 (moveFocus_stale_index_fails
                  (dispatch freshManager 1 (ADD_BAR (idData "x"))) 4)).
  - discriminate.
  - cbn. lia.
Defined.

Lemma toggleSelection_out_of_range (m : StateManager) (t : Z) (i : Z) :
  (i < 0 \/ Z.of_nat (List.length (AppState.bars (state m))) <= i)%Z ->
  KeyboardNavigationManager.toggleSelection m t i = m.
Proof.
  intros H. unfold KeyboardNavigationManager.toggleSelection, getState.
  destruct (Z.leb_spec 0 i),
    (Z.ltb_spec i (Z.of_nat (List.length (AppState.bars (state m)))));
    cbn; try reflexivity; lia.
Qed.

(** X25: [toggleSelection] does nothing when the focus index is outside the
    collection (as initially, with -1); inside it flips [isSelected] of the
    focused bar, and with pairwise different ids a second toggle restores
    the state. *)
Theorem toggleSelection_twice_restores (m : StateManager) (t1 t2 : Z)
    (focusedBarIndex : Z) :
  batchOperation m = false ->
  NoDup (barIds (state m)) ->
  ((focusedBarIndex < 0
    \/ Z.of_nat (List.length (AppState.bars (state m))) <= focusedBarIndex)%Z ->
   KeyboardNavigationManager.toggleSelection m t1 focusedBarIndex = m)
  /\ (forall bar,
        (0 <= focusedBarIndex)%Z ->
        nth_error (AppState.bars (state m)) (Z.to_nat focusedBarIndex) = Some bar ->
        nth_error
          (AppState.bars
             (state (KeyboardNavigationManager.toggleSelection m t1 focusedBarIndex)))
          (Z.to_nat focusedBarIndex)
        = Some (spreadBar bar
                  (selectedChange (negb (FractionBarState.isSelected bar)))))
  /\ state
       (KeyboardNavigationManager.toggleSelection
          (KeyboardNavigationManager.toggleSelection m t1 focusedBarIndex)
          t2 focusedBarIndex)
     = state m.
Proof.
  intros Hb Hnd.
  set (bars := AppState.bars (state m)).
  assert (Hout : (focusedBarIndex < 0
                  \/ Z.of_nat (List.length bars) <= focusedBarIndex)%Z ->
                 KeyboardNavigationManager.toggleSelection m t1 focusedBarIndex = m).
  { intros H. now apply toggleSelection_out_of_range. }
  assert (Hin : forall bar, (0 <= focusedBarIndex)%Z ->
            nth_error bars (Z.to_nat focusedBarIndex) = Some bar ->
            KeyboardNavigationManager.toggleSelection m t1 focusedBarIndex
            = dispatch m t1
                (MODIFY_BAR (FractionBarState.id bar)
                   (selectedChange (negb (FractionBarState.isSelected bar))))).
  { intros bar H0 Hn. unfold KeyboardNavigationManager.toggleSelection, getState.
    fold bars.
    assert (Hlt : (focusedBarIndex < Z.of_nat (List.length bars))%Z).
    { assert (Z.to_nat focusedBarIndex < List.length bars)%nat
        by (apply nth_error_Some; congruence). lia. }
    destruct (Z.leb_spec 0 focusedBarIndex); [|lia].
    destruct (Z.ltb_spec focusedBarIndex (Z.of_nat (List.length bars))); [|lia].
    cbn [andb]. unfold KeyboardNavigationManager.barAt.
    destruct (Z.ltb_spec focusedBarIndex 0); [lia|]. now rewrite Hn. }
  assert (Hnth : forall bar, (0 <= focusedBarIndex)%Z ->
            nth_error bars (Z.to_nat focusedBarIndex) = Some bar ->
            nth_error
              (AppState.bars
                 (state (KeyboardNavigationManager.toggleSelection m t1
                           focusedBarIndex)))
              (Z.to_nat focusedBarIndex)
            = Some (spreadBar bar
                      (selectedChange (negb (FractionBarState.isSelected bar))))).
  { intros bar H0 Hn. rewrite (Hin bar H0 Hn).
    rewrite (dispatch_unbatched _ _ _ Hb), executeAction_state. cbn.
    fold bars. rewrite nth_error_map, Hn. cbn. now rewrite String.eqb_refl. }
  split; [exact Hout | split; [exact Hnth|]].
  destruct (Z.ltb_spec focusedBarIndex 0) as [Hneg | H0].
  { rewrite (Hout (or_introl Hneg)).
    now rewrite toggleSelection_out_of_range by now left. }
  destruct (nth_error bars (Z.to_nat focusedBarIndex)) as [bar|] eqn:Hn.
  - pose proof (Hnth bar H0 eq_refl) as Hn2.
    set (m1 := KeyboardNavigationManager.toggleSelection m t1 focusedBarIndex) in *.
    assert (Hb1 : batchOperation m1 = false).
    { subst m1. rewrite (Hin bar H0 eq_refl). now rewrite dispatch_batchOperation. }
    assert (E2 : KeyboardNavigationManager.toggleSelection m1 t2 focusedBarIndex
                 = dispatch m1 t2
                     (MODIFY_BAR (FractionBarState.id bar)
                        (selectedChange
                           (negb (negb (FractionBarState.isSelected bar)))))).
    { unfold KeyboardNavigationManager.toggleSelection, getState.
      assert (Hlt : (focusedBarIndex
                     < Z.of_nat (List.length (AppState.bars (state m1))))%Z).
      { assert (Z.to_nat focusedBarIndex < List.length (AppState.bars (state m1)))%nat
          by (apply nth_error_Some; congruence). lia. }
      destruct (Z.leb_spec 0 focusedBarIndex); [|lia].
      destruct (Z.ltb_spec focusedBarIndex
                  (Z.of_nat (List.length (AppState.bars (state m1))))); [|lia].
      cbn [andb]. unfold KeyboardNavigationManager.barAt.
      destruct (Z.ltb_spec focusedBarIndex 0); [lia|]. now rewrite Hn2. }
    rewrite E2, (dispatch_unbatched _ _ _ Hb1), executeAction_state.
    subst m1. rewrite (Hin bar H0 eq_refl).
    rewrite (dispatch_unbatched _ _ _ Hb), executeAction_state. cbn.
    apply nth_error_In in Hn.
    rewrite (modify_selected_twice _ bar Hnd Hn). now destruct (state m).
  - apply nth_error_None in Hn.
    assert (Hr : (focusedBarIndex < 0
                  \/ Z.of_nat (List.length bars) <= focusedBarIndex)%Z)
      by (right; lia).
    rewrite (Hout Hr).
    now rewrite toggleSelection_out_of_range by exact Hr.
Qed.

Lemma toggleSelection_twice_restores_witness :
  state
    (KeyboardNavigationManager.toggleSelection
       (KeyboardNavigationManager.toggleSelection
          (dispatch freshManager 1 (ADD_BAR (idData "x"))) 2 0)
       3 0)
  = state (dispatch freshManager 1 (ADD_BAR (idData "x"))).
Proof.
  assert (Hnd : NoDup (barIds (state (dispatch freshManager 1 (ADD_BAR (idData "x")))))).
  { repeat constructor. intros []. }
  apply (toggleSelection_twice_restores
           (dispatch freshManager 1 (ADD_BAR (idData "x"))) 2 3 0 eq_refl Hnd).
Defined.

(** * Pointer tracking *)


Lemma mapGet_mapDelete_same (k : Z) (l : list (Z * TouchPoint)) :
  mapGet k (mapDelete k l) = None.
Proof.
  unfold mapDelete. induction l as [|[k' v'] l IH]; cbn; [reflexivity|].
  destruct (Z.eqb_spec k' k) as [-> | Hne]; cbn; [assumption|].
  destruct (Z.eqb_spec k' k); [contradiction | assumption].
Qed.

Lemma mapGet_mapDelete_other (k k' : Z) (l : list (Z * TouchPoint)) :
  k <> k' -> mapGet k (mapDelete k' l) = mapGet k l.
Proof.
  intros Hne. unfold mapDelete. induction l as [|[k0 v0] l IH]; cbn; [reflexivity|].
  destruct (Z.eqb_spec k0 k') as [-> | Hne']; cbn.
  - destruct (Z.eqb_spec k' k); [congruence | assumption].
  - now rewrite IH.
Qed.




Lemma handleTouchEnd_fold (changedTouches : list (Z * Touch)) :
  forall (m : TouchInteractionManager) (out : list Intent),
    let r :=
      fold_left
        (fun acc nt =>
           let m' := fst acc in
           let touch := snd nt in
           match mapGet (identifier touch) (activeTouches m') with
           | Some activeTouch =>
               (withActiveTouches m'
                  (mapDelete (identifier touch) (activeTouches m')),
                snd acc
                ++ (if isTap (fst nt - startTime activeTouch)
                         (currentX activeTouch - startX activeTouch)
                         (currentY activeTouch - startY activeTouch)
                    then optionalCall (onBarSelect m')
                           (BarSelect (clientX touch) (clientY touch))
                    else []))
           | None => acc
           end)
        changedTouches (m, out) in
    onBarSelect (fst r) = onBarSelect m
    /\ (forall k, In k (map (fun nt => identifier (snd nt)) changedTouches) ->
          mapGet k (activeTouches (fst r)) = None)
    /\ (forall k, ~ In k (map (fun nt => identifier (snd nt)) changedTouches) ->
          mapGet k (activeTouches (fst r)) = mapGet k (activeTouches m))
    /\ (forall k, mapGet k (activeTouches m) = None ->
          mapGet k (activeTouches (fst r)) = None)
    /\ exists extra,
         snd r = out ++ extra
         /\ (onBarSelect m = false -> extra = [])
         /\ forall i, In i extra ->
              exists nt tp,
                In nt changedTouches
                /\ mapGet (identifier (snd nt)) (activeTouches m) = Some tp
                /\ (fst nt - startTime tp < 300)%Z
                /\ i = BarSelect (clientX (snd nt)) (clientY (snd nt)).
Proof.
  induction changedTouches as [|[now touch] ts IH]; intros m out; cbn [fold_left].
  - cbn. repeat split; try tauto. exists []. rewrite app_nil_r.
    repeat split. intros i [].
  - cbn [fst snd].
    destruct (mapGet (identifier touch) (activeTouches m)) as [tp|] eqn:E.
    + specialize (IH (withActiveTouches m (mapDelete (identifier touch) (activeTouches m)))
                     (out ++ (if isTap (now - startTime tp)
                                   (currentX tp - startX tp)
                                   (currentY tp - startY tp)
                              then optionalCall (onBarSelect m)
                                     (BarSelect (clientX touch) (clientY touch))
                              else []))).
      cbn zeta in IH. cbn [fst snd] in IH.
      destruct IH as [Hcb [Hgone [Hkept [Hnone [extra [Hout [Hoff Hsel]]]]]]].
      cbn [onBarSelect activeTouches withActiveTouches] in *.
      repeat split.
      * exact Hcb.
      * intros k [<- | Hk].
        -- apply Hnone. apply mapGet_mapDelete_same.
        -- now apply Hgone.
      * intros k Hk. cbn in Hk.
        rewrite Hkept by tauto.
        apply mapGet_mapDelete_other. intros ->. apply Hk. now left.
      * intros k Hk. apply Hnone.
        destruct (Z.eq_dec k (identifier touch)) as [-> | Hne].
        -- apply mapGet_mapDelete_same.
        -- now rewrite mapGet_mapDelete_other.
      * eexists. split; [rewrite Hout, <- app_assoc; reflexivity|]. split.
        -- intros Hoff'. rewrite (Hoff Hoff'), Hoff'. cbn.
           now destruct (isTap _ _ _).
        -- intros i Hi. apply in_app_or in Hi. destruct Hi as [Hi | Hi].
           ++ destruct (isTap (now - startTime tp) _ _) eqn:Htap; [|destruct Hi].
              unfold optionalCall in Hi.
              destruct (onBarSelect m); [|destruct Hi].
              destruct Hi as [<- | []].
              exists (now, touch), tp. cbn [fst snd].
              repeat split; [now left | assumption |].
              unfold isTap in Htap. apply andb_true_iff in Htap.
              now apply Z.ltb_lt.
           ++ destruct (Hsel i Hi) as [nt [tp' [Hnt [Hget [Hdur Hi']]]]].
              destruct (Z.eq_dec (identifier (snd nt)) (identifier touch)) as [Heq | Hne].
              ** rewrite Heq, mapGet_mapDelete_same in Hget. discriminate.
              ** rewrite mapGet_mapDelete_other in Hget by assumption.
                 exists nt, tp'. repeat split; try assumption. now right.
    + specialize (IH m out). cbn zeta in IH.
      destruct IH as [Hcb [Hgone [Hkept [Hnone [extra [Hout [Hoff Hsel]]]]]]].
      repeat split.
      * exact Hcb.
      * intros k [<- | Hk]; [now apply Hnone | now apply Hgone].
      * intros k Hk. apply Hkept. cbn in Hk. tauto.
      * exact Hnone.
      * exists extra. repeat split; try assumption.
        intros i Hi. destruct (Hsel i Hi) as [nt [tp' [Hnt Hrest]]].
        exists nt, tp'. split; [now right | assumption].
Qed.

(** X27: After a touch end none of the lifted pointers is tracked, the other
    pointers are tracked as before, and a touch that was not tracked is
    ignored.  Every callback invoked is a select at the coordinates of a
    lifted touch that was tracked and went down less than 300 ms before;
    without a select callback nothing is invoked. *)
Theorem handleTouchEnd_releases_pointers (m : TouchInteractionManager)
    (changedTouches : list (Z * Touch)) :
  let r := handleTouchEnd m changedTouches in
  (forall k, In k (map (fun nt => identifier (snd nt)) changedTouches) ->
     mapGet k (activeTouches (fst r)) = None)
  /\ (forall k, ~ In k (map (fun nt => identifier (snd nt)) changedTouches) ->
        mapGet k (activeTouches (fst r)) = mapGet k (activeTouches m))
  /\ (onBarSelect m = false -> snd r = [])
  /\ (forall i, In i (snd r) ->
        exists nt tp,
          In nt changedTouches
          /\ mapGet (identifier (snd nt)) (activeTouches m) = Some tp
          /\ (fst nt - startTime tp < 300)%Z
          /\ i = BarSelect (clientX (snd nt)) (clientY (snd nt))).
Proof.
  unfold handleTouchEnd.
  destruct (handleTouchEnd_fold changedTouches m [])
    as [_ [Hgone [Hkept [_ [extra [Hout [Hoff Hsel]]]]]]].
  cbn zeta in *. cbn [app] in Hout.
  repeat split; try assumption.
  - intros H. rewrite Hout. now apply Hoff.
  - intros i Hi. rewrite Hout in Hi. now apply Hsel.
Qed.

(** X28: A touch that goes down while nothing is tracked and is lifted without a
    touch move in between is a tap exactly when it lasted less than 300 ms:
    the distance test compares the start with the position of the last
    touch move, not with the coordinates of the lift, so the select is
    emitted at the lift coordinates however far they are from the start.
    Afterwards nothing is tracked again. *)
Theorem touch_without_move_is_tap (m : TouchInteractionManager) (t0 t1 : Z)
    (down up : Touch) :
  activeTouches m = [] ->
  onBarSelect m = true ->
  identifier up = identifier down ->
  handleTouchEnd (handleTouchStart m [(t0, down)]) [(t1, up)]
  = (m, if (t1 - t0 <? 300)%Z
        then [BarSelect (clientX up) (clientY up)]
        else []).
Proof.
  intros Hact Hcb Hid. unfold handleTouchEnd, handleTouchStart.
  rewrite Hact. cbn. rewrite Hid, Z.eqb_refl. cbn. rewrite Hcb.
  unfold isTap, withActiveTouches. cbn.
  replace (Qlt_bool _ 100) with true.
  - rewrite andb_true_r. destruct m; cbn in *. subst.
    now destruct (t1 - t0 <? 300)%Z.
  - symmetry. apply Qlt_bool_iff.
    setoid_replace ((clientX down - clientX down) * (clientX down - clientX down)
                    + (clientY down - clientY down) * (clientY down - clientY down))
      with 0 by ring.
    reflexivity.
Qed.

Lemma touch_without_move_is_tap_witness :
  handleTouchEnd
    (handleTouchStart (mkTouchInteractionManager [] true true true)
       [(0%Z, mkTouch 4 100 100)])
    [(200%Z, mkTouch 4 103 101)]
  = (mkTouchInteractionManager [] true true true, [BarSelect 103 101]).
Proof.
  apply (touch_without_move_is_tap (mkTouchInteractionManager [] true true true)
           0 200 (mkTouch 4 100 100) (mkTouch 4 103 101) eq_refl eq_refl eq_refl).
Defined.

(** X29: A mouse button that goes down while nothing is tracked and is released
    is a click, emitted as a select at the release point, exactly when it
    lasted less than 300 ms and the release point is less than 10 away from
    the press point; afterwards nothing is tracked.  A mouse press while a
    pointer is tracked is ignored. *)
Theorem mouse_click_is_tap (m : TouchInteractionManager) (t0 t1 : Z)
    (x0 y0 x1 y1 : number) :
  activeTouches m = [] ->
  onBarSelect m = true ->
  let r := handleMouseUp (handleMouseDown m t0 x0 y0) t1 x1 y1 in
  fst r = m
  /\ ((t1 - t0 < 300)%Z /\ (x1 - x0) * (x1 - x0) + (y1 - y0) * (y1 - y0) < 100 ->
      snd r = [BarSelect x1 y1])
  /\ (~ ((t1 - t0 < 300)%Z
         /\ (x1 - x0) * (x1 - x0) + (y1 - y0) * (y1 - y0) < 100) ->
      snd r = [])
  /\ (forall m' t x y, activeTouches m' <> [] -> handleMouseDown m' t x y = m').
Proof.
  intros Hact Hcb r. subst r. unfold handleMouseUp, handleMouseDown.
  rewrite Hact. cbn. rewrite Hcb. unfold isTap.
  repeat split.
  - destruct m; cbn in *. now subst.
  - intros [Hd Hq]. apply Z.ltb_lt in Hd. apply Qlt_bool_iff in Hq.
    now rewrite Hd, Hq.
  - intros Hn.
    destruct (t1 - t0 <? 300)%Z eqn:Hd; [|reflexivity].
    destruct (Qlt_bool ((x1 - x0) * (x1 - x0) + (y1 - y0) * (y1 - y0)) 100) eqn:Hq;
      [|reflexivity].
    exfalso. apply Hn. split; [now apply Z.ltb_lt | now apply Qlt_bool_iff].
  - intros m' t x y Hne. destruct (activeTouches m'); [now elim Hne | reflexivity].
Qed.

Lemma mouse_click_is_tap_witness :
  snd (handleMouseUp
         (handleMouseDown (mkTouchInteractionManager [] true true true) 0 100 100)
         200 103 101)
  = [BarSelect 103 101].
Proof.
  apply (mouse_click_is_tap (mkTouchInteractionManager [] true true true)
           0 200 100 100 103 101 eq_refl eq_refl).
  split; [lia | unfold Qlt; cbn; lia].
Defined.
